(** * RethinkDB integration: the topology-join queries of [_queries.py]

    The module [datadog_checks/rethinkdb/_queries.py] builds three ReQL
    queries over the system tables of a RethinkDB cluster ([stats],
    [server_config], [table_config], [table_status]), runs them and yields
    tuples to the metrics layer.

    The development below embeds
    - the JSON-like values ReQL works on ([datum]),
    - the ReQL commands the queries are made of ([pluck], [merge],
      [without], [concat_map], [map], [get], [default], [nth], [filter],
      [eq_join]), each with the run-time errors it can raise,
    - the three queries and the Python generators around them,
    and states the properties of the queries as theorems.

    The commands behave as the RethinkDB server and the ReQL command
    reference have them: which errors [default] and [filter] absorb, what
    [get] returns for a key without a row, how [pluck] descends into nested
    selectors, how [merge] treats nested objects, which rows [eq_join]
    leaves out.  The four tables are system tables: each row is an object
    keyed by its [id]. *)

From Stdlib Require Import List String ZArith Bool Lia.
Import ListNotations.
Local Open Scope string_scope.
Local Open Scope list_scope.

(** ** Values *)

(** A ReQL value.  Numbers are kept as integers: the queries never compute
    with them.  An object is kept as the list of its fields; [lookup] reads
    the first binding of a key and every command below that builds an
    object keeps at most one binding per key. *)
Unset Elimination Schemes.
Inductive datum : Type :=
| DNull
| DBool (b : bool)
| DNum (z : Z)
| DStr (s : string)
| DArr (items : list datum)
| DObj (fields : list (string * datum)).
Set Elimination Schemes.

Definition obj : Type := list (string * datum).

Section DatumInd.
Variable P : datum -> Prop.
Hypothesis Hnull : P DNull.
Hypothesis Hbool : forall b, P (DBool b).
Hypothesis Hnum : forall z, P (DNum z).
Hypothesis Hstr : forall s, P (DStr s).
Hypothesis Harr : forall items, Forall P items -> P (DArr items).
Hypothesis Hobj : forall fields, Forall (fun kv => P (snd kv)) fields -> P (DObj fields).

Fixpoint datum_ind (d : datum) : P d :=
  match d with
  | DNull => Hnull
  | DBool b => Hbool b
  | DNum z => Hnum z
  | DStr s => Hstr s
  | DArr items =>
      Harr items
        ((fix all (l : list datum) : Forall P l :=
            match l with
            | [] => Forall_nil P
            | x :: l' => Forall_cons x (datum_ind x) (all l')
            end) items)
  | DObj fields =>
      Hobj fields
        ((fix all (l : obj) : Forall (fun kv => P (snd kv)) l :=
            match l with
            | [] => Forall_nil _
            | kv :: l' => Forall_cons kv (datum_ind (snd kv)) (all l')
            end) fields)
  end.
End DatumInd.

(** Equality of values, as ReQL's [==] and the primary-key match of [get]
    decide it. *)
Fixpoint datum_eqb (a b : datum) {struct a} : bool :=
  match a, b with
  | DNull, DNull => true
  | DBool x, DBool y => Bool.eqb x y
  | DNum x, DNum y => Z.eqb x y
  | DStr x, DStr y => String.eqb x y
  | DArr xs, DArr ys =>
      (fix go (xs ys : list datum) {struct xs} : bool :=
         match xs, ys with
         | [], [] => true
         | x :: xs', y :: ys' => datum_eqb x y && go xs' ys'
         | _, _ => false
         end) xs ys
  | DObj xs, DObj ys =>
      (fix go (xs ys : obj) {struct xs} : bool :=
         match xs, ys with
         | [], [] => true
         | kx :: xs', ky :: ys' =>
             String.eqb (fst kx) (fst ky) && datum_eqb (snd kx) (snd ky) && go xs' ys'
         | _, _ => false
         end) xs ys
  | _, _ => false
  end.

(** ** Objects *)

Fixpoint lookup (k : string) (o : obj) : option datum :=
  match o with
  | [] => None
  | (k', v) :: o' => if String.eqb k k' then Some v else lookup k o'
  end.

Fixpoint remove_key (k : string) (o : obj) : obj :=
  match o with
  | [] => []
  | (k', v) :: o' => if String.eqb k k' then remove_key k o' else (k', v) :: remove_key k o'
  end.

(** Writing a field: an existing binding is replaced where it stands, a new
    one is added at the end. *)
Fixpoint overwrite (k : string) (v : datum) (o : obj) : obj :=
  match o with
  | [] => [(k, v)]
  | (k', v') :: o' =>
      if String.eqb k k' then (k, v) :: remove_key k o' else (k', v') :: overwrite k v o'
  end.

Definition keys (o : obj) : list string := map fst o.

(** ** Errors *)

(** The failures a query and its generator can end in.
    [ReqlNonExistenceError] is the error of a missing field, an index out of
    bounds or an operation on [null]: the one that [default] and [filter]
    absorb.  [ReqlQueryLogicError] stands for every other run-time error of
    the server.  [KeyError] and [TypeError] are Python's, raised by
    subscripting a returned row.

    A query is evaluated as a whole: [Ok l] is a generator that yields the
    items of [l] and stops, [Err e] one that raises [e] (what it may have
    yielded before is not kept). *)
Inductive error : Type :=
| ReqlNonExistenceError
| ReqlQueryLogicError
| KeyError
| TypeError.

Inductive result (A : Type) : Type :=
| Ok (a : A)
| Err (e : error).
Arguments Ok {A} a.
Arguments Err {A} e.

Definition bind {A B : Type} (x : result A) (f : A -> result B) : result B :=
  match x with
  | Ok a => f a
  | Err e => Err e
  end.

Notation "x <- c1 ;; c2" := (bind c1 (fun x => c2))
  (at level 61, c1 at next level, right associativity).

Fixpoint mapM {A B : Type} (f : A -> result B) (l : list A) : result (list B) :=
  match l with
  | [] => Ok []
  | x :: l' => y <- f x ;; ys <- mapM f l' ;; Ok (y :: ys)
  end.

(** ** ReQL commands *)

(** *** Commands that work on an object or on a sequence of objects

    [pluck], [without], [merge] and the bracket apply to an object and are
    mapped over a sequence of objects.  On [null] they raise the
    non-existence error, on any other value (a sequence nested in a
    sequence included) a logic error. *)
Definition on_object (f : obj -> result datum) (d : datum) : result datum :=
  match d with
  | DObj o => f o
  | DNull => Err ReqlNonExistenceError
  | _ => Err ReqlQueryLogicError
  end.

Definition obj_or_seq (f : obj -> result datum) (d : datum) : result datum :=
  match d with
  | DArr items => ys <- mapM (on_object f) items ;; Ok (DArr ys)
  | _ => on_object f d
  end.

(** The same command applied to a stream of rows. *)
Definition on_stream (f : obj -> result datum) (rows : list datum) : result (list datum) :=
  mapM (on_object f) rows.

(** *** [pluck] *)

(** The selectors of [pluck]: a field name, a list of selectors, or a
    mapping from a field name to the selector applied below it. *)
Unset Elimination Schemes.
Inductive pathspec : Type :=
| PStr (k : string)
| PVec (ps : list pathspec)
| PMap (m : list (string * pathspec)).
Set Elimination Schemes.

Fixpoint mapO {A B : Type} (f : A -> option B) (l : list A) : option (list B) :=
  match l with
  | [] => Some []
  | x :: l' =>
      match f x, mapO f l' with
      | Some y, Some ys => Some (y :: ys)
      | _, _ => None
      end
  end.

Definition overwrite_all (src dst : obj) : obj :=
  fold_left (fun acc kv => overwrite (fst kv) (snd kv) acc) src dst.

(** The projection of a value on a selector.  [None] is the type error of
    reading a field of something that is not an object; below a mapping it
    is absorbed and the field is left out.  Under a mapping a sequence is
    projected item by item, one level deep. *)
Fixpoint project (p : pathspec) (d : datum) {struct p} : option obj :=
  match d with
  | DObj o =>
      match p with
      | PStr k => Some (match lookup k o with Some v => [(k, v)] | None => [] end)
      | PVec ps =>
          (fix go (ps : list pathspec) (res : obj) {struct ps} : option obj :=
             match ps with
             | [] => Some res
             | p' :: ps' =>
                 match project p' d with
                 | Some sub => go ps' (overwrite_all sub res)
                 | None => None
                 end
             end) ps []
      | PMap m =>
          (fix go (m : list (string * pathspec)) (res : obj) {struct m} : option obj :=
             match m with
             | [] => Some res
             | kp :: m' =>
                 match lookup (fst kp) o with
                 | None => go m' res
                 | Some val =>
                     let sub :=
                       match val with
                       | DArr items =>
                           option_map DArr
                             (mapO (fun e => option_map DObj (project (snd kp) e)) items)
                       | _ => option_map DObj (project (snd kp) val)
                       end in
                     match sub with
                     | Some r => go m' (overwrite (fst kp) r res)
                     | None => go m' res
                     end
                 end
             end) m []
      end
  | _ => None
  end.

Definition pluck_obj (p : pathspec) (o : obj) : result datum :=
  match project p (DObj o) with
  | Some r => Ok (DObj r)
  | None => Err ReqlQueryLogicError
  end.

Definition pluck (p : pathspec) : datum -> result datum := obj_or_seq (pluck_obj p).

(** [x.pluck('a', 'b', ...)] with plain field names. *)
Definition fields (ks : list string) : pathspec := PVec (map PStr ks).

(** *** [without] *)
Definition without_obj (k : string) (o : obj) : result datum := Ok (DObj (remove_key k o)).

Definition without (k : string) : datum -> result datum := obj_or_seq (without_obj k).

(** *** [merge] *)

(** The merge of two values: two objects are merged field by field, the
    fields of the right one winning and nested objects merged in turn; in
    every other case the right value replaces the left one. *)
Fixpoint merge (a b : datum) {struct b} : datum :=
  match a, b with
  | DObj l, DObj r =>
      DObj
        ((fix go (r : obj) (acc : obj) {struct r} : obj :=
            match r with
            | [] => acc
            | kv :: r' =>
                go r'
                  (overwrite (fst kv)
                     (match lookup (fst kv) acc with
                      | Some old => merge old (snd kv)
                      | None => snd kv
                      end) acc)
            end) r l)
  | _, _ => b
  end.

(** [x.merge(f)]: the argument is computed from the object it is merged
    into (this is how [r.row] inside the argument is bound). *)
Definition merge_obj (f : datum -> result datum) (o : obj) : result datum :=
  v <- f (DObj o) ;; Ok (merge (DObj o) v).

Definition merge_with (f : datum -> result datum) : datum -> result datum :=
  obj_or_seq (merge_obj f).

(** *** The bracket [x['k']] *)
Definition field_of (k : string) (o : obj) : result datum :=
  match lookup k o with
  | Some v => Ok v
  | None => Err ReqlNonExistenceError
  end.

(** On a sequence the bracket collects the field of the items that have it. *)
Fixpoint skip_map (f : datum -> result datum) (l : list datum) : result (list datum) :=
  match l with
  | [] => Ok []
  | x :: l' =>
      match f x with
      | Ok y => ys <- skip_map f l' ;; Ok (y :: ys)
      | Err ReqlNonExistenceError => skip_map f l'
      | Err e => Err e
      end
  end.

Definition bracket (k : string) (d : datum) : result datum :=
  match d with
  | DArr items => ys <- skip_map (on_object (field_of k)) items ;; Ok (DArr ys)
  | _ => on_object (field_of k) d
  end.

(** *** Sequences *)
Definition as_seq (d : datum) : result (list datum) :=
  match d with
  | DArr items => Ok items
  | DNull => Err ReqlNonExistenceError
  | _ => Err ReqlQueryLogicError
  end.

Definition map_ (f : datum -> result datum) (d : datum) : result (list datum) :=
  items <- as_seq d ;; mapM f items.

Fixpoint concat_map (f : datum -> result (list datum)) (rows : list datum)
  : result (list datum) :=
  match rows with
  | [] => Ok []
  | r :: rows' => xs <- f r ;; ys <- concat_map f rows' ;; Ok (xs ++ ys)
  end.

Definition nth_ (i : nat) (d : datum) : result datum :=
  match d with
  | DArr items =>
      match nth_error items i with
      | Some x => Ok x
      | None => Err ReqlNonExistenceError
      end
  | DNull => Err ReqlNonExistenceError
  | _ => Err ReqlQueryLogicError
  end.

Definition eq_ (a b : datum) : datum := DBool (datum_eqb a b).

(** *** [default] *)

(** [x.default(v)] is [v] when [x] is [null] or raises the non-existence
    error, and [x] otherwise; other errors pass through. *)
Definition default (x : result datum) (v : datum) : result datum :=
  match x with
  | Ok DNull => Ok v
  | Ok d => Ok d
  | Err ReqlNonExistenceError => Ok v
  | Err e => Err e
  end.

(** *** [filter] *)
Definition truthy (d : datum) : bool :=
  match d with
  | DNull | DBool false => false
  | _ => true
  end.

(** A row on which the predicate raises the non-existence error is left out
    ([filter]'s [default=False]). *)
Fixpoint filter_ (p : datum -> result datum) (rows : list datum) : result (list datum) :=
  match rows with
  | [] => Ok []
  | r :: rows' =>
      match p r with
      | Ok v => rest <- filter_ p rows' ;; Ok (if truthy v then r :: rest else rest)
      | Err ReqlNonExistenceError => filter_ p rows'
      | Err e => Err e
      end
  end.

(** *** Tables *)

(** A table is the list of its rows; the primary key of a row is its [id]
    field. *)
Definition table : Type := list datum.

Definition row_id (r : datum) : option datum :=
  match r with
  | DObj o => lookup "id" o
  | _ => None
  end.

Definition has_key (k : datum) (r : datum) : bool :=
  match row_id r with
  | Some i => datum_eqb i k
  | None => false
  end.

(** [table.get(k)] on a system table: the row of key [k], or [null] when
    there is none (a key of the wrong shape names no row). *)
Definition get (tbl : table) (k : datum) : datum :=
  match find (has_key k) tbl with
  | Some r => r
  | None => DNull
  end.

Definition get_all (tbl : table) (k : datum) : list datum := filter (has_key k) tbl.

(** [left.eq_join(key, right)]: a left row is paired with the rows of
    [right] whose primary key is the value of [key] on it, as
    [{left: ..., right: ...}]; rows are matched when the key on the left
    exists and is not [null], so a left row whose key is missing or [null]
    is left out.  The queries do not ask for an ordered join, so the server
    promises no order of the pairs; they are listed here in the order of the
    left rows, and what is stated of the joins does not depend on it. *)
Definition eq_join (left : list datum) (key : datum -> result datum) (right : table)
  : result (list datum) :=
  concat_map
    (fun row =>
       k <- default (key row) DNull ;;
       match k with
       | DNull => Ok []
       | _ => Ok (map (fun v => DObj [("left", row); ("right", v)]) (get_all right k))
       end)
    left.

(** ** Python *)

(** [row['k']] on a row returned by the driver. *)
Definition getitem (k : string) (row : datum) : result datum :=
  match row with
  | DObj o =>
      match lookup k o with
      | Some v => Ok v
      | None => Err KeyError
      end
  | _ => Err TypeError
  end.

(** ** The queries *)

(** What a connection gives access to: the system tables of the
    [rethinkdb] database, as they stand when the query runs.
    [table_status] is read with [identifier_format='uuid']. *)
Record connection : Type := {
  stats : table;
  server_config : table;
  table_config : table;
  table_status : table
}.

(** *** [query_servers_with_stats] *)

(** [r.row['id'].nth(0) == 'server'] *)
Definition is_server_stats_row (row : datum) : result datum :=
  i <- bracket "id" row ;; x <- nth_ 0 i ;; Ok (eq_ x (DStr "server")).

(** [r.row['id'].nth(1)] *)
Definition server_id (row : datum) : result datum :=
  i <- bracket "id" row ;; nth_ 1 i.

Definition join_rows (rows : list datum) : result (list (datum * datum)) :=
  mapM
    (fun row =>
       l <- getitem "left" row ;;
       r <- getitem "right" row ;;
       Ok (r, l))
    rows.

Definition query_servers_with_stats (conn : connection) : result (list (datum * datum)) :=
  rows <- (l <- filter_ is_server_stats_row (stats conn) ;;
           eq_join l server_id (server_config conn)) ;;
  join_rows rows.

(** *** [query_tables_with_stats] *)

(** [r.row['id'].nth(0) == 'table'] *)
Definition is_table_stats_row (row : datum) : result datum :=
  i <- bracket "id" row ;; x <- nth_ 0 i ;; Ok (eq_ x (DStr "table")).

(** [r.row['id'].nth(1)] *)
Definition table_id (row : datum) : result datum :=
  i <- bracket "id" row ;; nth_ 1 i.

Definition query_tables_with_stats (conn : connection) : result (list (datum * datum)) :=
  rows <- (l <- filter_ is_table_stats_row (stats conn) ;;
           eq_join l table_id (table_config conn)) ;;
  join_rows rows.

(** *** [query_replicas_with_stats] *)

(** The first half of the query, down to [.without('replicas')]: one row
    [{table: <table id>, replica: {server, state}}] per replica of every
    shard of every table. *)
Definition flatten (conn : connection) : result (list datum) :=
  rows <- on_stream
            (pluck_obj (PVec [PStr "id"; PMap [("shards", PVec [PStr "replicas"])]]))
            (table_status conn) ;;
  rows <- on_stream
            (merge_obj (fun row => i <- bracket "id" row ;; Ok (DObj [("table", i)])))
            rows ;;
  rows <- on_stream (without_obj "id") rows ;;
  rows <- concat_map
            (fun row =>
               shards <- bracket "shards" row ;;
               map_ (fun shard => merge_with (fun _ => pluck (fields ["replicas"]) shard) row)
                    shards)
            rows ;;
  rows <- on_stream (without_obj "shards") rows ;;
  rows <- concat_map
            (fun row =>
               replicas <- bracket "replicas" row ;;
               map_ (fun replica =>
                       merge_with
                         (fun _ =>
                            rp <- pluck (fields ["server"; "state"]) replica ;;
                            Ok (DObj [("replica", rp)]))
                         row)
                    replicas)
            rows ;;
  on_stream (without_obj "replicas") rows.

(** [{'table': table_config.get(r.row['table']).pluck('id', 'db', 'name')}] *)
Definition table_info (conn : connection) (row : datum) : result datum :=
  t <- bracket "table" row ;;
  info <- pluck (fields ["id"; "db"; "name"]) (get (table_config conn) t) ;;
  Ok (DObj [("table", info)]).

(** [{'server': server_config.get(r.row['replica']['server'])
                .default({'id': None}).pluck('id', 'name', 'tags')}] *)
Definition server_info (conn : connection) (row : datum) : result datum :=
  s <- default
         (rp <- bracket "replica" row ;;
          k <- bracket "server" rp ;;
          Ok (get (server_config conn) k))
         (DObj [("id", DNull)]) ;;
  info <- pluck (fields ["id"; "name"; "tags"]) s ;;
  Ok (DObj [("server", info)]).

(** [{'stats': stats.get(['table_server', r.row['table']['id'], r.row['server']['id']])
               .default({}).pluck('query_engine', 'storage_engine')}] *)
Definition stats_info (conn : connection) (row : datum) : result datum :=
  s <- default
         (t <- bracket "table" row ;;
          tid <- bracket "id" t ;;
          sv <- bracket "server" row ;;
          sid <- bracket "id" sv ;;
          Ok (get (stats conn) (DArr [DStr "table_server"; tid; sid])))
         (DObj []) ;;
  info <- pluck (fields ["query_engine"; "storage_engine"]) s ;;
  Ok (DObj [("stats", info)]).

(** The whole query. *)
Definition replicas_query (conn : connection) : result (list datum) :=
  rows <- flatten conn ;;
  rows <- on_stream (merge_obj (table_info conn)) rows ;;
  rows <- on_stream (merge_obj (server_info conn)) rows ;;
  on_stream (merge_obj (stats_info conn)) rows.

Definition replica_tuple : Type := datum * datum * datum * datum.

Definition query_replicas_with_stats (conn : connection) : result (list replica_tuple) :=
  rows <- replicas_query conn ;;
  mapM
    (fun row =>
       table <- getitem "table" row ;;
       server <- getitem "server" row ;;
       replica <- getitem "replica" row ;;
       replica_stats <- getitem "stats" row ;;
       Ok (table, server, replica, replica_stats))
    rows.

(** ** A cluster to try things on

    One table [T1] with one shard; its replicas are on server [A] (ready)
    and on server [B] (disconnected, without a [server_config] row). *)
Module Scenario.

Definition T1 : datum := DStr "T1".
Definition A : datum := DStr "A".
Definition B : datum := DStr "B".

Definition stats_cluster : datum :=
  DObj [("id", DArr [DStr "cluster"]); ("query_engine", DObj [("queries_per_sec", DNum 3)])].

Definition stats_server_A : datum :=
  DObj [("id", DArr [DStr "server"; A]); ("server", DStr "srv_a");
        ("query_engine", DObj [("queries_total", DNum 10)])].

Definition stats_table_T1 : datum :=
  DObj [("id", DArr [DStr "table"; T1]); ("table", DStr "t1");
        ("query_engine", DObj [("read_docs_per_sec", DNum 1)])].

Definition stats_replica_T1_A : datum :=
  DObj [("id", DArr [DStr "table_server"; T1; A]); ("server", DStr "srv_a");
        ("query_engine", DObj [("read_docs_total", DNum 7)]);
        ("storage_engine", DObj [("cache", DObj [("in_use_bytes", DNum 64)])])].

Definition config_A : datum :=
  DObj [("id", A); ("name", DStr "srv_a"); ("tags", DArr [DStr "default"]);
        ("cache_size_mb", DStr "auto")].

Definition config_T1 : datum :=
  DObj [("id", T1); ("db", DStr "d"); ("name", DStr "t1"); ("primary_key", DStr "id")].

Definition status_T1 : datum :=
  DObj [("id", T1); ("db", DStr "d"); ("name", DStr "t1");
        ("shards",
         DArr [DObj [("primary_replicas", DArr [A]);
                     ("replicas",
                      DArr [DObj [("server", A); ("state", DStr "ready")];
                            DObj [("server", B); ("state", DStr "disconnected")]])]])].

Definition conn : connection := {|
  stats := [stats_cluster; stats_server_A; stats_table_T1; stats_replica_T1_A];
  server_config := [config_A];
  table_config := [config_T1];
  table_status := [status_T1]
|}.

(** The two flattened records of the cluster. *)
Definition rec_A : datum :=
  DObj [("table", T1); ("replica", DObj [("server", A); ("state", DStr "ready")])].

Definition rec_B : datum :=
  DObj [("table", T1); ("replica", DObj [("server", B); ("state", DStr "disconnected")])].

(** The same cluster while [B] still has replica statistics on record. *)
Definition lagging : connection := {|
  stats :=
    stats conn ++
    [ DObj [("id", DArr [DStr "table_server"; T1; B]); ("server", DStr "srv_b");
            ("query_engine", DObj [("read_docs_total", DNum 5)])] ];
  server_config := server_config conn;
  table_config := table_config conn;
  table_status := table_status conn
|}.

(** The same cluster when the row of [T1] is gone from [table_config]. *)
Definition orphan : connection := {|
  stats := stats conn;
  server_config := server_config conn;
  table_config := [];
  table_status := table_status conn
|}.

(** The same cluster with two more tables: one without shards, one whose
    only shard has no replicas. *)
Definition sparse : connection := {|
  stats := stats conn;
  server_config := server_config conn;
  table_config := table_config conn;
  table_status :=
    DObj [("id", DStr "T2"); ("db", DStr "d"); ("name", DStr "t2"); ("shards", DArr [])]
    :: table_status conn ++
    [ DObj [("id", DStr "T3"); ("db", DStr "d"); ("name", DStr "t3");
            ("shards", DArr [DObj [("primary_replicas", DArr []); ("replicas", DArr [])]])] ]
|}.

End Scenario.

(** ** What the tables are expected to hold *)

Definition is_object (d : datum) : bool :=
  match d with
  | DObj _ => true
  | _ => false
  end.

(** A primary key is a string, a number, a boolean or an array of such:
    never [null], never an object. *)
Fixpoint valid_key (d : datum) : bool :=
  match d with
  | DNull => false
  | DObj _ => false
  | DArr items =>
      (fix all (l : list datum) : bool :=
         match l with
         | [] => true
         | x :: l' => valid_key x && all l'
         end) items
  | _ => true
  end.

Fixpoint distinct_keys (tbl : table) : bool :=
  match tbl with
  | [] => true
  | r :: tbl' =>
      match row_id r with
      | Some i => negb (existsb (has_key i) tbl') && distinct_keys tbl'
      | None => false
      end
  end.

(** Every row of a table has a valid primary key, and no two rows share one. *)
Definition valid_table (tbl : table) : bool :=
  forallb (fun r => match row_id r with Some i => valid_key i | None => false end) tbl
  && distinct_keys tbl.

(** The identifier of a row of [stats] is an array. *)
Definition has_composite_id (r : datum) : bool :=
  match row_id r with
  | Some (DArr _) => true
  | _ => false
  end.

Definition status_id (row : datum) : datum :=
  match row_id row with
  | Some i => i
  | None => DNull
  end.

Definition shards_of (row : datum) : list datum :=
  match row with
  | DObj o => match lookup "shards" o with Some (DArr l) => l | _ => [] end
  | _ => []
  end.

Definition replicas_of (shard : datum) : list datum :=
  match shard with
  | DObj o => match lookup "replicas" o with Some (DArr l) => l | _ => [] end
  | _ => []
  end.

Definition wf_shard (shard : datum) : bool :=
  match shard with
  | DObj o =>
      match lookup "replicas" o with
      | Some (DArr rps) => forallb is_object rps
      | _ => false
      end
  | _ => false
  end.

(** A row of [table_status]: an identifier and a list of shards, each with
    its list of replicas. *)
Definition wf_status (row : datum) : bool :=
  match row with
  | DObj o =>
      match lookup "id" o, lookup "shards" o with
      | Some i, Some (DArr shs) => valid_key i && forallb wf_shard shs
      | _, _ => false
      end
  | _ => false
  end.

(** The replicas a [table_status] table lists, each with the identifier of
    its table, in the order of the table. *)
Definition replicas_in (ts : table) : list (datum * datum) :=
  flat_map
    (fun row =>
       flat_map (fun sh => map (fun rp => (status_id row, rp)) (replicas_of sh)) (shards_of row))
    ts.

Definition replica_count (row : datum) : nat :=
  list_sum (map (fun sh => List.length (replicas_of sh)) (shards_of row)).

(** The fields [ks] of an object, those that it has. *)
Definition opt_field (k : string) (o : obj) : obj :=
  match lookup k o with
  | Some v => [(k, v)]
  | None => []
  end.

Definition view (ks : list string) (d : datum) : datum :=
  match d with
  | DObj o => DObj (flat_map (fun k => opt_field k o) ks)
  | _ => DNull
  end.

Definition flat_record (p : datum * datum) : datum :=
  DObj [("table", fst p); ("replica", view ["server"; "state"] (snd p))].

(** Every flattened record's table has a row in [table_config]. *)
Definition tables_known (conn : connection) : bool :=
  forallb (fun p => existsb (has_key (fst p)) (table_config conn))
          (replicas_in (table_status conn)).

(** The server of a replica, as the query joins it. *)
Definition server_view (conn : connection) (rp : datum) : datum :=
  match bracket "server" rp with
  | Ok k =>
      match find (has_key k) (server_config conn) with
      | Some row => view ["id"; "name"; "tags"] row
      | None => DObj [("id", DNull)]
      end
  | Err _ => DObj [("id", DNull)]
  end.

(** The statistics of a replica, as the query joins them. *)
Definition stats_view (conn : connection) (tid sid : datum) : datum :=
  match find (has_key (DArr [DStr "table_server"; tid; sid])) (stats conn) with
  | Some row => view ["query_engine"; "storage_engine"] row
  | None => DObj []
  end.

Definition tuple_of (conn : connection) (p : datum * datum) : replica_tuple :=
  let server := server_view conn (view ["server"; "state"] (snd p)) in
  (view ["id"; "db"; "name"] (get (table_config conn) (fst p)),
   server,
   view ["server"; "state"] (snd p),
   stats_view conn (fst p) (match bracket "id" server with Ok i => i | Err _ => DNull end)).

(** The shard of a [table_status] row once [pluck] has cut it down to its
    replicas. *)
Definition shard_view (sh : datum) : datum := DObj [("replicas", DArr (replicas_of sh))].

(** *** The two joins, row by row *)

(** The filter of both joins: [r.row['id'].nth(0) == kind]. *)
Definition kind_row (kind : string) (row : datum) : result datum :=
  i <- bracket "id" row ;; x <- nth_ 0 i ;; Ok (eq_ x (DStr kind)).

(** The identifier of the row is an array whose first item is [kind]. *)
Definition starts_with (kind : string) (row : datum) : bool :=
  match row_id row with
  | Some (DArr (x :: _)) => datum_eqb x (DStr kind)
  | _ => false
  end.

(** The rows of [right] whose key is the second item of the identifier. *)
Definition matches (right : table) (st : datum) : list datum :=
  match row_id st with
  | Some (DArr (_ :: k :: _)) =>
      match k with
      | DNull => []
      | _ => get_all right k
      end
  | _ => []
  end.

Definition joined (kind : string) (right : table) (st : datum) : list (datum * datum) :=
  if starts_with kind st then map (fun c => (c, st)) (matches right st) else [].

(** *** Fields of a yielded value *)

(** The value is an object and all its fields are among [ks]. *)
Definition only (ks : list string) (d : datum) : bool :=
  match d with
  | DObj o => forallb (fun k => existsb (String.eqb k) ks) (keys o)
  | _ => false
  end.

Definition table_fields : list string := ["id"; "db"; "name"].
Definition server_fields : list string := ["id"; "name"; "tags"].
Definition replica_fields : list string := ["server"; "state"].
Definition stats_fields : list string := ["query_engine"; "storage_engine"].

(** All three families yield nothing but the needed fields. *)
Definition only_needed_fields (conn : connection) : Prop :=
  (forall out, query_servers_with_stats conn = Ok out ->
     Forall (fun p => only server_fields (fst p) = true /\ only stats_fields (snd p) = true) out)
  /\ (forall out, query_tables_with_stats conn = Ok out ->
        Forall (fun p => only table_fields (fst p) = true /\ only stats_fields (snd p) = true) out)
  /\ (forall out, query_replicas_with_stats conn = Ok out ->
        Forall (fun q : replica_tuple =>
                  let '(t, s, r, st) := q in
                  only table_fields t = true /\ only server_fields s = true /\
                  only replica_fields r = true /\ only stats_fields st = true) out).

(** *** Shapes of a statistics identifier *)

(** The identifier is none of [['server', S]], [['table', T]],
    [['table_server', T, S]]. *)
Definition other_shape (ids : list datum) : bool :=
  match ids with
  | [x; _] => negb (datum_eqb x (DStr "server") || datum_eqb x (DStr "table"))
  | [x; _; _] => negb (datum_eqb x (DStr "table_server"))
  | _ => true
  end.

(** A row of any other shape takes part in neither join. *)
Definition other_shapes_excluded (conn : connection) : Prop :=
  forall row ids,
    In row (stats conn) -> row_id row = Some (DArr ids) -> other_shape ids = true ->
    (forall out c, query_servers_with_stats conn = Ok out -> ~ In (c, row) out) /\
    (forall out c, query_tables_with_stats conn = Ok out -> ~ In (c, row) out).

(** The identifier of a statistics row is an array, and its first item
    names the kind of the row and with it the length: an identifier that
    starts with ['server'] or ['table'] has no third item. *)
Definition kind_fixes_length (row : datum) : bool :=
  match row_id row with
  | Some (DArr (x :: _ :: _ :: _)) =>
      negb (datum_eqb x (DStr "server") || datum_eqb x (DStr "table"))
  | Some (DArr _) => true
  | _ => false
  end.

(** *** Totality of the enrichment *)

(** Every flattened record comes out as one tuple. *)
Definition enrichment_total (conn : connection) : Prop :=
  forall recs, flatten conn = Ok recs ->
    exists out, query_replicas_with_stats conn = Ok out /\ List.length out = List.length recs.

(** ** The rest of the module *)

(** *** [query_cluster_stats] *)

(** [r.db('rethinkdb').table('stats').get(['cluster']).run(conn)]: the row
    of the cluster, or [null] ([None] in Python) when there is none. *)
Definition query_cluster_stats (conn : connection) : datum :=
  get (stats conn) (DArr [DStr "cluster"]).

(** *** Outcomes *)

(** The outcome is a result or an error of the server: not a [KeyError] or
    a [TypeError] of the Python code around the query. *)
Definition no_python_error {A : Type} (x : result A) : bool :=
  match x with
  | Err KeyError | Err TypeError => false
  | _ => true
  end.

(** An identifier that is neither [null] nor an array. *)
Definition not_a_sequence (d : datum) : bool :=
  match d with
  | DNull | DArr _ => false
  | _ => true
  end.

(** The same cluster with another [table_status]. *)
Definition with_status (conn : connection) (ts : table) : connection := {|
  stats := stats conn;
  server_config := server_config conn;
  table_config := table_config conn;
  table_status := ts
|}.

(** *** More clusters to try things on *)
Module Cases.

(** A replica that names no server. *)
Definition status_anonymous : datum :=
  DObj [("id", Scenario.T1); ("db", DStr "d"); ("name", DStr "t1");
        ("shards", DArr [DObj [("replicas", DArr [DObj [("state", DStr "ready")]])]])].

Definition anonymous : connection :=
  with_status Scenario.conn [status_anonymous].

Definition rec_anonymous : datum :=
  DObj [("table", Scenario.T1); ("replica", DObj [("state", DStr "ready")])].

(** A [table_status] row without its [shards]. *)
Definition status_bare : datum :=
  DObj [("id", DStr "T4"); ("db", DStr "d"); ("name", DStr "t4")].

Definition bare : connection :=
  with_status Scenario.conn [Scenario.status_T1; status_bare].

(** A statistics row whose identifier is a string. *)
Definition stats_flat : datum := DObj [("id", DStr "server"); ("server", DStr "srv_a")].

Definition flat : connection := {|
  stats := [Scenario.stats_server_A; stats_flat];
  server_config := server_config Scenario.conn;
  table_config := table_config Scenario.conn;
  table_status := table_status Scenario.conn
|}.

(** The cluster of [Scenario.conn] with the statistics of its replicas only. *)
Definition replicas_only : connection := {|
  stats := [Scenario.stats_replica_T1_A];
  server_config := server_config Scenario.conn;
  table_config := table_config Scenario.conn;
  table_status := table_status Scenario.conn
|}.

End Cases.

(** ** Basic facts *)

Lemma bracket_obj (k : string) (o : obj) : bracket k (DObj o) = field_of k o.
Proof. reflexivity. Qed.

(** One step of a query on a row whose fields are known: the brackets on
    objects are looked up and the binds around them run. *)
Ltac reql_eval := cbn [field_of lookup String.eqb Ascii.eqb Bool.eqb bind].
Ltac reql_step := reql_eval; repeat (rewrite bracket_obj; reql_eval).

(** *** Equality of values *)

Lemma datum_eqb_eq (a b : datum) : datum_eqb a b = true <-> a = b.
Proof.
  revert b. induction a as [| x | x | x | xs IH | xs IH] using datum_ind;
    intros [| y | y | y | ys | ys]; simpl; try (split; [discriminate | congruence]).
  - tauto.
  - rewrite Bool.eqb_true_iff. split; congruence.
  - rewrite Z.eqb_eq. split; congruence.
  - rewrite String.eqb_eq. split; congruence.
  - revert ys. induction IH as [| x xs Hx _ IHxs]; intros [| y ys].
    + tauto.
    + split; [discriminate | congruence].
    + split; [discriminate | congruence].
    + rewrite andb_true_iff, Hx, IHxs. split.
      * intros [-> E]. congruence.
      * intros E. injection E as -> ->. auto.
  - revert ys. induction IH as [| [k x] xs Hx _ IHxs]; intros [| [k' y] ys].
    + tauto.
    + split; [discriminate | congruence].
    + split; [discriminate | congruence].
    + simpl in *. rewrite !andb_true_iff, String.eqb_eq, Hx, IHxs. split.
      * intros [[-> ->] E]. congruence.
      * intros E. injection E as -> -> ->. auto.
Qed.

Lemma datum_eqb_refl (a : datum) : datum_eqb a a = true.
Proof. apply datum_eqb_eq. reflexivity. Qed.
(** *** Lists of results *)

Lemma mapM_map {A B C : Type} (f : B -> result C) (h : A -> B) (g : A -> C) (l : list A) :
  (forall x, In x l -> f (h x) = Ok (g x)) -> mapM f (map h l) = Ok (map g l).
Proof.
  induction l as [| x l IH]; intros H; simpl.
  - reflexivity.
  - rewrite (H x (or_introl eq_refl)). simpl.
    rewrite IH by (intros y Hy; apply H; right; exact Hy). reflexivity.
Qed.

Lemma mapM_app {A B : Type} (f : A -> result B) (l1 l2 : list A) (r1 r2 : list B) :
  mapM f l1 = Ok r1 -> mapM f l2 = Ok r2 -> mapM f (l1 ++ l2) = Ok (r1 ++ r2).
Proof.
  revert r1. induction l1 as [| x l1 IH]; intros r1 H1 H2; simpl in *.
  - injection H1 as <-. exact H2.
  - destruct (f x) as [y |]; simpl in *; [| discriminate].
    destruct (mapM f l1) as [ys |]; simpl in *; [| discriminate].
    injection H1 as <-. rewrite (IH ys eq_refl H2). reflexivity.
Qed.

Lemma mapM_flat_map {A B C : Type} (f : B -> result C) (g : A -> list B) (h : A -> list C)
  (l : list A) :
  (forall x, In x l -> mapM f (g x) = Ok (h x)) ->
  mapM f (flat_map g l) = Ok (flat_map h l).
Proof.
  induction l as [| x l IH]; intros H; simpl.
  - reflexivity.
  - apply mapM_app.
    + apply H. left. reflexivity.
    + apply IH. intros y Hy. apply H. right. exact Hy.
Qed.

Lemma concat_map_app (f : datum -> result (list datum)) (l1 l2 r1 r2 : list datum) :
  concat_map f l1 = Ok r1 -> concat_map f l2 = Ok r2 ->
  concat_map f (l1 ++ l2) = Ok (r1 ++ r2).
Proof.
  revert r1. induction l1 as [| x l1 IH]; intros r1 H1 H2; simpl in *.
  - injection H1 as <-. exact H2.
  - destruct (f x) as [y |]; simpl in *; [| discriminate].
    destruct (concat_map f l1) as [ys |]; simpl in *; [| discriminate].
    injection H1 as <-. rewrite (IH ys eq_refl H2). simpl. rewrite app_assoc. reflexivity.
Qed.

Lemma concat_map_flat_map {A : Type} (f : datum -> result (list datum))
  (g h : A -> list datum) (l : list A) :
  (forall x, In x l -> concat_map f (g x) = Ok (h x)) ->
  concat_map f (flat_map g l) = Ok (flat_map h l).
Proof.
  induction l as [| x l IH]; intros H; simpl.
  - reflexivity.
  - apply concat_map_app.
    + apply H. left. reflexivity.
    + apply IH. intros y Hy. apply H. right. exact Hy.
Qed.

Lemma concat_map_map {A : Type} (f : datum -> result (list datum)) (h : A -> datum)
  (g : A -> list datum) (l : list A) :
  (forall x, In x l -> f (h x) = Ok (g x)) -> concat_map f (map h l) = Ok (flat_map g l).
Proof.
  induction l as [| x l IH]; intros H; simpl.
  - reflexivity.
  - rewrite (H x (or_introl eq_refl)). simpl.
    rewrite IH by (intros y Hy; apply H; right; exact Hy). reflexivity.
Qed.

Lemma mapO_map {A B C : Type} (f : B -> option C) (h : A -> B) (g : A -> C) (l : list A) :
  (forall x, In x l -> f (h x) = Some (g x)) -> mapO f (map h l) = Some (map g l).
Proof.
  induction l as [| x l IH]; intros H; simpl.
  - reflexivity.
  - rewrite (H x (or_introl eq_refl)).
    rewrite IH by (intros y Hy; apply H; right; exact Hy). reflexivity.
Qed.

(** *** [pluck] of plain field names *)

Lemma project_fields2 k1 k2 o : String.eqb k2 k1 = false ->
  project (fields [k1; k2]) (DObj o) = Some (opt_field k1 o ++ opt_field k2 o).
Proof.
  intros Hk. unfold fields, opt_field. simpl.
  destruct (lookup k1 o), (lookup k2 o); simpl; try rewrite Hk; reflexivity.
Qed.

Lemma project_fields3 k1 k2 k3 o :
  String.eqb k2 k1 = false -> String.eqb k3 k1 = false -> String.eqb k3 k2 = false ->
  project (fields [k1; k2; k3]) (DObj o) = Some (opt_field k1 o ++ opt_field k2 o ++ opt_field k3 o).
Proof.
  intros H1 H2 H3. unfold fields, opt_field. simpl.
  destruct (lookup k1 o), (lookup k2 o), (lookup k3 o); simpl;
    rewrite ?H1, ?H2, ?H3; simpl; rewrite ?H1, ?H2, ?H3; reflexivity.
Qed.

Lemma mapM_ok {A B : Type} (f : A -> result B) (g : A -> B) (l : list A) :
  (forall x, In x l -> f x = Ok (g x)) -> mapM f l = Ok (map g l).
Proof.
  intros H. rewrite <- (map_id l) at 1. apply mapM_map. exact H.
Qed.

Lemma mapO_ok {A B : Type} (f : A -> option B) (g : A -> B) (l : list A) :
  (forall x, In x l -> f x = Some (g x)) -> mapO f l = Some (map g l).
Proof.
  intros H. rewrite <- (map_id l) at 1. apply mapO_map. exact H.
Qed.

(** *** The flattening half of the query *)

Lemma wf_shard_inv sh : wf_shard sh = true ->
  exists o rps, sh = DObj o /\ lookup "replicas" o = Some (DArr rps) /\
                replicas_of sh = rps /\ forallb is_object rps = true.
Proof.
  destruct sh as [| | | | |o]; simpl; try discriminate.
  destruct (lookup "replicas" o) as [[| | | |rps|]|] eqn:E; try discriminate.
  intros H. exists o, rps. auto.
Qed.

Lemma wf_status_inv row : wf_status row = true ->
  exists o i shs, row = DObj o /\ lookup "id" o = Some i /\ lookup "shards" o = Some (DArr shs) /\
                  status_id row = i /\ shards_of row = shs /\
                  valid_key i = true /\ forallb wf_shard shs = true.
Proof.
  destruct row as [| | | | |o]; simpl; try discriminate.
  unfold status_id. simpl.
  destruct (lookup "id" o) as [i|] eqn:Ei; try discriminate.
  destruct (lookup "shards" o) as [[| | | |shs|]|] eqn:Es; try discriminate.
  intros H. apply andb_true_iff in H. destruct H as [Hk Hs].
  exists o, i, shs. auto 10.
Qed.

Lemma pluck_shard sh : wf_shard sh = true ->
  project (PVec [PStr "replicas"]) sh = Some [("replicas", DArr (replicas_of sh))].
Proof.
  intros H. destruct (wf_shard_inv sh H) as (o & rps & -> & Hr & -> & _).
  cbn -[lookup]. rewrite Hr. reflexivity.
Qed.

Lemma pluck_status row : wf_status row = true ->
  on_object (pluck_obj (PVec [PStr "id"; PMap [("shards", PVec [PStr "replicas"])]])) row
  = Ok (DObj [("id", status_id row); ("shards", DArr (map shard_view (shards_of row)))]).
Proof.
  intros H. destruct (wf_status_inv row H) as (o & i & shs & -> & Hid & Hsh & -> & -> & _ & Hwf).
  unfold on_object, pluck_obj. cbn -[lookup mapO].
  rewrite Hid, Hsh.
  rewrite (mapO_ok _ shard_view).
  - reflexivity.
  - intros sh Hin. rewrite forallb_forall in Hwf.
    destruct (wf_shard_inv sh (Hwf sh Hin)) as (so & rps & -> & Hr & E & _).
    unfold shard_view. rewrite E. cbn -[lookup]. rewrite Hr. reflexivity.
Qed.

Lemma per_replica i rps rp : is_object rp = true ->
  merge_with (fun _ => r <- pluck (fields ["server"; "state"]) rp ;; Ok (DObj [("replica", r)]))
    (DObj [("table", i); ("replicas", rps)])
  = Ok (DObj [("table", i); ("replicas", rps); ("replica", view ["server"; "state"] rp)]).
Proof.
  destruct rp as [| | | | |o]; try discriminate. intros _.
  unfold merge_with, merge_obj, pluck, pluck_obj, obj_or_seq, on_object.
  rewrite project_fields2 by reflexivity. simpl. rewrite app_nil_r. reflexivity.
Qed.

Lemma map_flat_map {A B C : Type} (f : B -> C) (g : A -> list B) (l : list A) :
  map f (flat_map g l) = flat_map (fun x => map f (g x)) l.
Proof.
  induction l as [| x l IH]; simpl.
  - reflexivity.
  - rewrite map_app, IH. reflexivity.
Qed.

Lemma flatten_spec conn : forallb wf_status (table_status conn) = true ->
  flatten conn = Ok (map flat_record (replicas_in (table_status conn))).
Proof.
  intros Hwf. rewrite forallb_forall in Hwf. unfold flatten, on_stream.
  set (ts := table_status conn) in *.
  rewrite (mapM_ok _ _ ts (fun row H => pluck_status row (Hwf row H))).
  cbn [bind].
  rewrite (mapM_map _ _
    (fun row => DObj [("id", status_id row); ("shards", DArr (map shard_view (shards_of row)));
                      ("table", status_id row)]))
    by reflexivity.
  cbn [bind].
  rewrite (mapM_map _ _
    (fun row => DObj [("shards", DArr (map shard_view (shards_of row)));
                      ("table", status_id row)]))
    by reflexivity.
  cbn [bind].
  rewrite (concat_map_map _ _
    (fun row => map (fun sh => DObj [("shards", DArr (map shard_view (shards_of row)));
                                      ("table", status_id row);
                                      ("replicas", DArr (replicas_of sh))]) (shards_of row))).
  2:{ intros row Hin. reql_step.
      unfold map_. cbn [as_seq bind]. apply mapM_map. reflexivity. }
  cbn [bind].
  rewrite (mapM_flat_map _ _
    (fun row => map (fun sh => DObj [("table", status_id row);
                                      ("replicas", DArr (replicas_of sh))]) (shards_of row))).
  2:{ intros row Hin. apply mapM_map. reflexivity. }
  cbn [bind].
  rewrite (concat_map_flat_map _ _
    (fun row => flat_map (fun sh => map (fun rp =>
        DObj [("table", status_id row); ("replicas", DArr (replicas_of sh));
              ("replica", view ["server"; "state"] rp)]) (replicas_of sh)) (shards_of row))).
  2:{ intros row Hin. apply concat_map_map. intros sh Hsh.
      reql_step.
      unfold map_. cbn [as_seq bind]. apply mapM_ok. intros rp Hrp.
      apply per_replica.
      destruct (wf_status_inv row (Hwf row Hin)) as (o & i & shs & _ & _ & _ & _ & E & _ & Hs).
      rewrite forallb_forall in Hs. rewrite E in Hsh.
      destruct (wf_shard_inv sh (Hs sh Hsh)) as (so & rps & _ & _ & E' & Hr).
      rewrite forallb_forall in Hr. rewrite E' in Hrp. auto. }
  cbn [bind].
  rewrite (mapM_flat_map _ _
    (fun row => flat_map (fun sh => map (fun rp => flat_record (status_id row, rp))
                                         (replicas_of sh)) (shards_of row))).
  2:{ intros row Hin. apply mapM_flat_map. intros sh Hsh. apply mapM_map. reflexivity. }
  f_equal. unfold replicas_in. rewrite map_flat_map. apply flat_map_ext. intros row.
  rewrite map_flat_map. apply flat_map_ext. intros sh. rewrite map_map. reflexivity.
Qed.

(** *** Keys and lookups *)

Lemma has_key_inv k row : has_key k row = true ->
  exists o, row = DObj o /\ lookup "id" o = Some k.
Proof.
  unfold has_key, row_id. destruct row as [| | | | |o]; try discriminate.
  destruct (lookup "id" o) as [i|] eqn:E; [| discriminate].
  intros H. apply datum_eqb_eq in H. subst. eauto.
Qed.

Lemma find_has_key tbl k row : find (has_key k) tbl = Some row ->
  In row tbl /\ exists o, row = DObj o /\ lookup "id" o = Some k.
Proof.
  intros H. apply find_some in H. destruct H as [Hin H]. split; [exact Hin |].
  apply has_key_inv. exact H.
Qed.

Lemma merge_scalar a b : is_object a = false -> merge a b = b.
Proof. destruct a, b; simpl; intros; try reflexivity; discriminate. Qed.

Lemma valid_key_not_object i : valid_key i = true -> is_object i = false.
Proof. destruct i; simpl; intros; try reflexivity; discriminate. Qed.

Lemma pluck_view3 k1 k2 k3 o :
  String.eqb k2 k1 = false -> String.eqb k3 k1 = false -> String.eqb k3 k2 = false ->
  pluck (fields [k1; k2; k3]) (DObj o) = Ok (view [k1; k2; k3] (DObj o)).
Proof.
  intros H1 H2 H3. unfold pluck, obj_or_seq, on_object, pluck_obj.
  rewrite project_fields3 by assumption. simpl. rewrite app_nil_r. reflexivity.
Qed.

Lemma pluck_view2 k1 k2 o : String.eqb k2 k1 = false ->
  pluck (fields [k1; k2]) (DObj o) = Ok (view [k1; k2] (DObj o)).
Proof.
  intros H1. unfold pluck, obj_or_seq, on_object, pluck_obj.
  rewrite project_fields2 by assumption. simpl. rewrite app_nil_r. reflexivity.
Qed.

(** *** The three merges of the enrichment, on one record *)

Section Enrichment.

Variable conn : connection.

Lemma table_stage i rv row :
  find (has_key i) (table_config conn) = Some row -> is_object i = false ->
  on_object (merge_obj (table_info conn)) (DObj [("table", i); ("replica", rv)])
  = Ok (DObj [("table", view ["id"; "db"; "name"] row); ("replica", rv)]).
Proof.
  intros Hf Hi. destruct (find_has_key _ _ _ Hf) as (_ & o & -> & Hid).
  unfold on_object, merge_obj, table_info, get. reql_step.
  rewrite Hf, pluck_view3 by reflexivity. cbn [bind].
  cbn [merge lookup String.eqb Ascii.eqb Bool.eqb fst snd overwrite remove_key].
  rewrite (merge_scalar i _ Hi). reflexivity.
Qed.

Lemma table_stage_missing i rv :
  find (has_key i) (table_config conn) = None ->
  on_object (merge_obj (table_info conn)) (DObj [("table", i); ("replica", rv)])
  = Err ReqlNonExistenceError.
Proof.
  intros Hf. unfold on_object, merge_obj, table_info, get.
  reql_step.
  rewrite Hf. reflexivity.
Qed.

Lemma server_info_value tv rv : is_object rv = true ->
  server_info conn (DObj [("table", tv); ("replica", rv)])
  = Ok (DObj [("server", server_view conn rv)]).
Proof.
  destruct rv as [| | | | |ro]; try discriminate. intros _.
  unfold server_info, server_view, get. reql_step.
  unfold field_of. destruct (lookup "server" ro) as [k|]; cbn [bind default].
  - destruct (find (has_key k) (server_config conn)) as [row|] eqn:Hf.
    + destruct (find_has_key _ _ _ Hf) as (_ & o & -> & Hid).
      cbn [default bind]. rewrite (pluck_view3 "id" "name" "tags" o) by reflexivity. reflexivity.
    + reflexivity.
  - reflexivity.
Qed.

Lemma server_stage tv rv : is_object rv = true ->
  on_object (merge_obj (server_info conn)) (DObj [("table", tv); ("replica", rv)])
  = Ok (DObj [("table", tv); ("replica", rv); ("server", server_view conn rv)]).
Proof.
  intros Hrv. unfold on_object, merge_obj. rewrite (server_info_value tv rv Hrv). reflexivity.
Qed.

Lemma stats_stage tv rv sv tid sid :
  bracket "id" tv = Ok tid -> bracket "id" sv = Ok sid ->
  on_object (merge_obj (stats_info conn))
    (DObj [("table", tv); ("replica", rv); ("server", sv)])
  = Ok (DObj [("table", tv); ("replica", rv); ("server", sv);
              ("stats", stats_view conn tid sid)]).
Proof.
  intros Ht Hs. unfold on_object, merge_obj, stats_info, stats_view, get.
  reql_step. rewrite Ht. reql_step. rewrite Hs. cbn [bind].
  destruct (find (has_key (DArr [DStr "table_server"; tid; sid])) (stats conn)) as [row|] eqn:Hf.
  - destruct (find_has_key _ _ _ Hf) as (_ & o & -> & Hid).
    cbn [default bind]. rewrite pluck_view2 by reflexivity. reflexivity.
  - reflexivity.
Qed.

Lemma server_view_id rv : exists sid, bracket "id" (server_view conn rv) = Ok sid.
Proof.
  unfold server_view. destruct (bracket "server" rv) as [k|]; [| eexists; reflexivity].
  destruct (find (has_key k) (server_config conn)) as [row|] eqn:Hf; [| eexists; reflexivity].
  destruct (find_has_key _ _ _ Hf) as (_ & o & -> & Hid).
  exists k. unfold view, opt_field. simpl. rewrite Hid. reflexivity.
Qed.

End Enrichment.

Lemma table_view_id i o : lookup "id" o = Some i ->
  bracket "id" (view ["id"; "db"; "name"] (DObj o)) = Ok i.
Proof.
  intros H. unfold view, opt_field. simpl. rewrite H. reflexivity.
Qed.

Lemma existsb_find {A : Type} (f : A -> bool) (l : list A) :
  existsb f l = true -> exists x, find f l = Some x.
Proof.
  induction l as [| x l IH]; simpl; [discriminate |].
  destruct (f x); [eauto | exact IH].
Qed.

Lemma not_existsb_find {A : Type} (f : A -> bool) (l : list A) :
  existsb f l = false -> find f l = None.
Proof.
  induction l as [| x l IH]; simpl; [reflexivity |].
  destruct (f x); [discriminate | exact IH].
Qed.

Lemma replicas_in_iff ts p :
  In p (replicas_in ts) <->
  exists row sh, In row ts /\ In sh (shards_of row) /\ In (snd p) (replicas_of sh) /\
                 fst p = status_id row.
Proof.
  unfold replicas_in. rewrite in_flat_map. split.
  - intros (row & Hrow & H). rewrite in_flat_map in H. destruct H as (sh & Hsh & H).
    rewrite in_map_iff in H. destruct H as (rp & <- & Hrp). exists row, sh. auto.
  - intros (row & sh & Hrow & Hsh & Hrp & E). exists row. split; [exact Hrow |].
    rewrite in_flat_map. exists sh. split; [exact Hsh |].
    rewrite in_map_iff. exists (snd p). split; [| exact Hrp].
    destruct p; simpl in *; congruence.
Qed.

Lemma wf_replica ts p : forallb wf_status ts = true -> In p (replicas_in ts) ->
  valid_key (fst p) = true /\ is_object (snd p) = true.
Proof.
  intros Hwf Hp. rewrite forallb_forall in Hwf.
  apply replicas_in_iff in Hp. destruct Hp as (row & sh & Hrow & Hsh & Hrp & E).
  destruct (wf_status_inv row (Hwf row Hrow)) as (o & i & shs & _ & _ & _ & Ei & Es & Hk & Hs).
  rewrite forallb_forall in Hs. rewrite Es in Hsh.
  destruct (wf_shard_inv sh (Hs sh Hsh)) as (so & rps & _ & _ & Er & Hr).
  rewrite forallb_forall in Hr. rewrite Er in Hrp.
  split; [congruence | auto].
Qed.

Lemma view_is_object ks d : is_object d = true -> is_object (view ks d) = true.
Proof. destruct d; simpl; intros; try discriminate; reflexivity. Qed.

Lemma replicas_spec conn :
  forallb wf_status (table_status conn) = true -> tables_known conn = true ->
  query_replicas_with_stats conn = Ok (map (tuple_of conn) (replicas_in (table_status conn))).
Proof.
  intros Hwf Hknown. unfold query_replicas_with_stats, replicas_query, on_stream.
  rewrite (flatten_spec conn Hwf). cbn [bind].
  unfold tables_known in Hknown. rewrite forallb_forall in Hknown.
  rewrite (mapM_map _ _
    (fun p => DObj [("table", view ["id"; "db"; "name"] (get (table_config conn) (fst p)));
                    ("replica", view ["server"; "state"] (snd p))])).
  2:{ intros p Hp. destruct (existsb_find _ _ (Hknown p Hp)) as (row & Hf).
      unfold flat_record, get. rewrite Hf. apply table_stage; [exact Hf |].
      apply valid_key_not_object. apply (wf_replica _ _ Hwf Hp). }
  cbn [bind].
  rewrite (mapM_map _ _
    (fun p => DObj [("table", view ["id"; "db"; "name"] (get (table_config conn) (fst p)));
                    ("replica", view ["server"; "state"] (snd p));
                    ("server", server_view conn (view ["server"; "state"] (snd p)))])).
  2:{ intros p Hp. apply server_stage. apply view_is_object. apply (wf_replica _ _ Hwf Hp). }
  cbn [bind].
  rewrite (mapM_map _ _
    (fun p => DObj [("table", fst (fst (fst (tuple_of conn p))));
                    ("replica", snd (fst (tuple_of conn p)));
                    ("server", snd (fst (fst (tuple_of conn p))));
                    ("stats", snd (tuple_of conn p))])).
  2:{ intros p Hp. cbn [tuple_of fst snd]. apply stats_stage.
      - destruct (existsb_find _ _ (Hknown p Hp)) as (row & Hf).
        unfold get. rewrite Hf. destruct (find_has_key _ _ _ Hf) as (_ & o & -> & Hid).
        apply table_view_id. exact Hid.
      - destruct (server_view_id conn (view ["server"; "state"] (snd p))) as (sid & E).
        rewrite E. reflexivity. }
  cbn [bind].
  apply mapM_map. intros p Hp.
  cbn [getitem lookup String.eqb Ascii.eqb Bool.eqb bind].
  destruct (tuple_of conn p) as [[[t s] r] st]. reflexivity.
Qed.

(** *** The two joins *)

Lemma composite_inv r : has_composite_id r = true ->
  exists o ids, r = DObj o /\ lookup "id" o = Some (DArr ids).
Proof.
  unfold has_composite_id, row_id. destruct r as [| | | | |o]; try discriminate.
  destruct (lookup "id" o) as [[| | | |ids|]|] eqn:E; try discriminate. eauto.
Qed.

Lemma kind_row_value kind r : has_composite_id r = true ->
  kind_row kind r = Ok (DBool (starts_with kind r)) \/
  (kind_row kind r = Err ReqlNonExistenceError /\ starts_with kind r = false).
Proof.
  intros Hr. destruct (composite_inv r Hr) as (o & ids & -> & Hid).
  unfold kind_row, starts_with, row_id.
  cbn [bracket on_object field_of bind]. unfold field_of. rewrite Hid. cbn [bind].
  destruct ids as [| x ids]; cbn [nth_ nth_error bind]; auto.
Qed.

Lemma filter_spec kind l : forallb has_composite_id l = true ->
  filter_ (kind_row kind) l = Ok (filter (starts_with kind) l).
Proof.
  induction l as [| r l IH]; simpl; [reflexivity |].
  intros H. apply andb_true_iff in H. destruct H as [Hr Hl].
  destruct (kind_row_value kind r Hr) as [-> | [-> ->]].
  - rewrite (IH Hl). cbn [bind truthy]. destruct (starts_with kind r); reflexivity.
  - apply IH. exact Hl.
Qed.

Lemma filter_composite (p : datum -> bool) l :
  forallb has_composite_id l = true -> forallb has_composite_id (filter p l) = true.
Proof.
  rewrite !forallb_forall. intros H x Hx. apply filter_In in Hx. apply H, Hx.
Qed.

Lemma eq_join_spec l right : forallb has_composite_id l = true ->
  eq_join l server_id right
  = Ok (flat_map (fun st => map (fun v => DObj [("left", st); ("right", v)]) (matches right st)) l).
Proof.
  intros H. rewrite forallb_forall in H. unfold eq_join.
  rewrite <- (map_id l) at 1. apply concat_map_map. intros st Hst.
  destruct (composite_inv st (H st Hst)) as (o & ids & -> & Hid).
  unfold server_id, matches, row_id, id.
  cbn [bracket on_object field_of bind]. unfold field_of. rewrite Hid. cbn [bind].
  destruct ids as [| x [| k ids]]; cbn [nth_ nth_error default bind]; try reflexivity.
  destruct k; reflexivity.
Qed.

Lemma join_rows_spec (l : list datum) (m : datum -> list datum) :
  join_rows (flat_map (fun st => map (fun v => DObj [("left", st); ("right", v)]) (m st)) l)
  = Ok (flat_map (fun st => map (fun c => (c, st)) (m st)) l).
Proof.
  unfold join_rows. apply mapM_flat_map. intros st _. apply mapM_map. reflexivity.
Qed.

Lemma flat_map_filter {A B : Type} (p : A -> bool) (f : A -> list B) (l : list A) :
  flat_map f (filter p l) = flat_map (fun x => if p x then f x else []) l.
Proof.
  induction l as [| x l IH]; simpl; [reflexivity |].
  destruct (p x); simpl; rewrite IH; reflexivity.
Qed.

Lemma join_query_spec kind st_tbl right :
  forallb has_composite_id st_tbl = true ->
  (rows <- (l <- filter_ (kind_row kind) st_tbl ;; eq_join l server_id right) ;; join_rows rows)
  = Ok (flat_map (joined kind right) st_tbl).
Proof.
  intros H. rewrite (filter_spec kind _ H). cbn [bind].
  rewrite (eq_join_spec _ right (filter_composite _ _ H)). cbn [bind].
  rewrite join_rows_spec, flat_map_filter. reflexivity.
Qed.

Lemma servers_spec conn : forallb has_composite_id (stats conn) = true ->
  query_servers_with_stats conn = Ok (flat_map (joined "server" (server_config conn)) (stats conn)).
Proof. intros H. exact (join_query_spec "server" _ _ H). Qed.

Lemma tables_spec conn : forallb has_composite_id (stats conn) = true ->
  query_tables_with_stats conn = Ok (flat_map (joined "table" (table_config conn)) (stats conn)).
Proof. intros H. exact (join_query_spec "table" _ _ H). Qed.

(** *** Tables with distinct keys *)

Lemma distinct_filter tbl r k : distinct_keys tbl = true -> In r tbl -> row_id r = Some k ->
  filter (has_key k) tbl = [r].
Proof.
  induction tbl as [| x tbl IH]; simpl; [tauto |].
  destruct (row_id x) as [i|] eqn:Ex; [| discriminate].
  intros H Hin Hk. apply andb_true_iff in H. destruct H as [Hx Hd].
  apply negb_true_iff in Hx.
  destruct Hin as [-> | Hin].
  - unfold has_key at 1. rewrite Hk, datum_eqb_refl.
    assert (i = k) by congruence. subst i.
    f_equal. clear - Hx. induction tbl as [| y tbl IH]; simpl in *; [reflexivity |].
    apply orb_false_iff in Hx. destruct Hx as [-> Hx]. auto.
  - assert (has_key k x = false) as ->.
    { unfold has_key. rewrite Ex. destruct (datum_eqb i k) eqn:E; [| reflexivity].
      apply datum_eqb_eq in E. subst i.
      assert (existsb (has_key k) tbl = true) as Hc; [| congruence].
      apply existsb_exists. exists r. split; [exact Hin |].
      unfold has_key. rewrite Hk. apply datum_eqb_refl. }
    auto.
Qed.

Lemma valid_table_inv tbl r : valid_table tbl = true -> In r tbl ->
  distinct_keys tbl = true /\ exists i, row_id r = Some i /\ valid_key i = true.
Proof.
  unfold valid_table. intros H Hin. apply andb_true_iff in H. destruct H as [Hk Hd].
  split; [exact Hd |]. rewrite forallb_forall in Hk. specialize (Hk r Hin).
  destruct (row_id r) as [i|]; [eauto | discriminate].
Qed.

Lemma filter_flat_map {A B : Type} (p : B -> bool) (f : A -> list B) (l : list A) :
  filter p (flat_map f l) = flat_map (fun x => filter p (f x)) l.
Proof.
  induction l as [| x l IH]; simpl; [reflexivity |].
  rewrite filter_app, IH. reflexivity.
Qed.

Lemma filter_joined kind right K st :
  filter (fun p : datum * datum => has_key K (snd p)) (joined kind right st)
  = if has_key K st then joined kind right st else [].
Proof.
  unfold joined. destruct (starts_with kind st); [| destruct (has_key K st); reflexivity].
  induction (matches right st) as [| c l IH]; simpl.
  - destruct (has_key K st); reflexivity.
  - rewrite IH. destruct (has_key K st); reflexivity.
Qed.

(** *** Records and tuples by position *)

Lemma flattened_at conn recs n rec :
  forallb wf_status (table_status conn) = true ->
  flatten conn = Ok recs -> nth_error recs n = Some rec ->
  exists p, nth_error (replicas_in (table_status conn)) n = Some p /\ rec = flat_record p /\
            In p (replicas_in (table_status conn)).
Proof.
  intros Hwf Hf Hn. rewrite (flatten_spec conn Hwf) in Hf. injection Hf as <-.
  rewrite nth_error_map in Hn.
  destruct (nth_error (replicas_in (table_status conn)) n) as [p|] eqn:E; [| discriminate].
  injection Hn as <-. exists p. split; [reflexivity |]. split; [reflexivity |].
  apply nth_error_In with n. exact E.
Qed.

Lemma tuple_at conn n p :
  nth_error (replicas_in (table_status conn)) n = Some p ->
  nth_error (map (tuple_of conn) (replicas_in (table_status conn))) n = Some (tuple_of conn p).
Proof. intros H. rewrite nth_error_map, H. reflexivity. Qed.

Lemma flat_record_replica p : bracket "replica" (flat_record p) = Ok (view replica_fields (snd p)).
Proof. reflexivity. Qed.

Lemma flat_record_table p : bracket "table" (flat_record p) = Ok (fst p).
Proof. reflexivity. Qed.

Lemma server_view_missing conn rv k :
  bracket "server" rv = Ok k -> existsb (has_key k) (server_config conn) = false ->
  server_view conn rv = DObj [("id", DNull)].
Proof.
  intros Hk Hm. unfold server_view. rewrite Hk, (not_existsb_find _ _ Hm). reflexivity.
Qed.

Lemma mapM_err {A B : Type} (f : A -> result B) (e : error) (l : list A) :
  (forall x, In x l -> f x = Err e \/ exists y, f x = Ok y) ->
  (exists x, In x l /\ f x = Err e) ->
  mapM f l = Err e.
Proof.
  induction l as [| x l IH]; intros Hall (z & Hz & Hez).
  - destruct Hz.
  - simpl. destruct (Hall x (or_introl eq_refl)) as [E | (y & E)]; rewrite E; [reflexivity |].
    simpl. destruct Hz as [<- | Hz]; [congruence |].
    rewrite IH; [reflexivity | | eauto].
    intros w Hw. apply Hall. right. exact Hw.
Qed.

Lemma length_flat_map {A B : Type} (f : A -> list B) (l : list A) :
  List.length (flat_map f l) = list_sum (map (fun x => List.length (f x)) l).
Proof.
  induction l as [| x l IH]; simpl; [reflexivity |].
  rewrite length_app, IH. reflexivity.
Qed.

Lemma replicas_in_length ts :
  List.length (replicas_in ts) = list_sum (map replica_count ts).
Proof.
  unfold replicas_in. rewrite length_flat_map. f_equal. apply map_ext. intros row.
  unfold replica_count. rewrite length_flat_map. f_equal. apply map_ext. intros sh.
  apply length_map.
Qed.

Lemma valid_key_null_inside tid l : valid_key (DArr (tid :: DNull :: l)) = false.
Proof. simpl. destruct (valid_key tid); reflexivity. Qed.

Lemma no_null_key tbl k1 k2 :
  valid_table tbl = true ->
  existsb (has_key (DArr [k1; k2; DNull])) tbl = false.
Proof.
  intros Hv. destruct (existsb (has_key (DArr [k1; k2; DNull])) tbl) eqn:E; [| reflexivity].
  apply existsb_exists in E. destruct E as (r & Hr & Hk).
  destruct (valid_table_inv tbl r Hv Hr) as (_ & i & Hi & Hvk).
  unfold has_key in Hk. rewrite Hi in Hk. apply datum_eqb_eq in Hk. subst i.
  simpl in Hvk. destruct (valid_key k1), (valid_key k2); discriminate.
Qed.

(** *** Fields of the views *)

Lemma keys_of_fields (ks ks' : list string) (o : obj) :
  incl ks' ks ->
  forallb (fun k => existsb (String.eqb k) ks) (keys (flat_map (fun k => opt_field k o) ks'))
  = true.
Proof.
  induction ks' as [| k ks' IH]; intros Hincl; simpl; [reflexivity |].
  unfold keys in *. rewrite map_app, forallb_app. apply andb_true_iff. split.
  - unfold opt_field. destruct (lookup k o); simpl; [| reflexivity].
    rewrite andb_true_r. apply existsb_exists. exists k. split.
    + apply Hincl. left. reflexivity.
    + apply String.eqb_refl.
  - apply IH. intros x Hx. apply Hincl. right. exact Hx.
Qed.

Lemma only_view ks d : is_object d = true -> only ks (view ks d) = true.
Proof.
  destruct d as [| | | | |o]; try discriminate. intros _. simpl.
  apply keys_of_fields. apply incl_refl.
Qed.

Lemma get_is_object tbl k : existsb (has_key k) tbl = true -> is_object (get tbl k) = true.
Proof.
  intros H. destruct (existsb_find _ _ H) as (row & Hrow). unfold get. rewrite Hrow.
  destruct (find_has_key _ _ _ Hrow) as (_ & o & -> & _). reflexivity.
Qed.

Lemma only_server_view conn rv : only server_fields (server_view conn rv) = true.
Proof.
  unfold server_view. destruct (bracket "server" rv) as [k|]; [| reflexivity].
  destruct (find (has_key k) (server_config conn)) as [row|] eqn:E; [| reflexivity].
  destruct (find_has_key _ _ _ E) as (_ & o & -> & _). apply only_view. reflexivity.
Qed.

Lemma only_stats_view conn tid sid : only stats_fields (stats_view conn tid sid) = true.
Proof.
  unfold stats_view.
  destruct (find (has_key (DArr [DStr "table_server"; tid; sid])) (stats conn)) as [row|] eqn:E;
    [| reflexivity].
  destruct (find_has_key _ _ _ E) as (_ & o & -> & _). apply only_view. reflexivity.
Qed.

(** *** Members of a join *)

Lemma joined_snd kind right st c row : In (c, row) (joined kind right st) -> st = row.
Proof.
  unfold joined. destruct (starts_with kind st); [| intros []].
  intros H. apply in_map_iff in H. destruct H as (x & E & _). congruence.
Qed.

Lemma in_joined kind right row ids c :
  row_id row = Some (DArr ids) ->
  (In (c, row) (joined kind right row) <->
   exists k rest, ids = DStr kind :: k :: rest /\ k <> DNull /\ In c right /\ has_key k c = true).
Proof.
  intros Hid. unfold joined, starts_with, matches. rewrite Hid. split.
  - destruct ids as [| x [| k rest]];
      [intros [] | destruct (datum_eqb x (DStr kind)); intros [] |].
    destruct (datum_eqb x (DStr kind)) eqn:Ex; [| intros []].
    apply datum_eqb_eq in Ex. subst x. intros H. apply in_map_iff in H.
    destruct H as (c' & E & Hc). injection E as ->.
    exists k, rest. split; [reflexivity |].
    destruct k; try destruct Hc; (split; [discriminate |]);
      apply filter_In in Hc; exact Hc.
  - intros (k & rest & -> & Hk & Hc & Hkey). rewrite datum_eqb_refl.
    apply in_map_iff. exists c. split; [reflexivity |].
    destruct k; try congruence; apply filter_In; auto.
Qed.

Lemma in_join_output kind right sts row ids c :
  In row sts -> row_id row = Some (DArr ids) ->
  (In (c, row) (flat_map (joined kind right) sts) <->
   exists k rest, ids = DStr kind :: k :: rest /\ k <> DNull /\ In c right /\ has_key k c = true).
Proof.
  intros Hrow Hid. rewrite <- (in_joined kind right row ids c Hid). rewrite in_flat_map. split.
  - intros (st & Hst & H). rewrite (joined_snd _ _ _ _ _ H) in H. exact H.
  - intros H. exists row. auto.
Qed.

Lemma joined_members kind right sts c st :
  In (c, st) (flat_map (joined kind right) sts) -> In c right /\ In st sts.
Proof.
  rewrite in_flat_map. intros (st' & Hst & H). pose proof (joined_snd _ _ _ _ _ H) as ->.
  split; [| exact Hst]. unfold joined in H. destruct (starts_with kind st); [| destruct H].
  apply in_map_iff in H. destruct H as (c' & E & Hc). injection E as ->.
  unfold matches in Hc. destruct (row_id st) as [[| | | |[| x [| k rest]]|]|]; try destruct Hc.
  destruct k; try destruct Hc; apply filter_In in Hc; apply Hc.
Qed.

(** *** Finding a row by its key *)

Lemma find_hd_filter {A : Type} (p : A -> bool) (l : list A) :
  find p l = hd_error (filter p l).
Proof.
  induction l as [| x l IH]; simpl; [reflexivity |]. destruct (p x); [reflexivity | exact IH].
Qed.

Lemma distinct_find tbl r k :
  distinct_keys tbl = true -> In r tbl -> row_id r = Some k -> find (has_key k) tbl = Some r.
Proof.
  intros Hd Hin Hk. rewrite find_hd_filter, (distinct_filter _ r _ Hd Hin Hk). reflexivity.
Qed.

Lemma valid_table_distinct tbl : valid_table tbl = true -> distinct_keys tbl = true.
Proof. unfold valid_table. intros H. apply andb_true_iff in H. tauto. Qed.

(** *** Statistics rows by kind *)

Lemma kind_fixes_length_composite sts :
  forallb kind_fixes_length sts = true -> forallb has_composite_id sts = true.
Proof.
  rewrite !forallb_forall. intros H r Hr. specialize (H r Hr).
  unfold kind_fixes_length in H. unfold has_composite_id.
  destruct (row_id r) as [[| | | | ids |] |]; try discriminate. reflexivity.
Qed.

Lemma kind_row_of_id kind row x rest :
  row_id row = Some (DArr (x :: rest)) -> kind_row kind row = Ok (DBool (datum_eqb x (DStr kind))).
Proof.
  unfold row_id. destruct row as [| | | | | o]; try discriminate. intros Hid.
  unfold kind_row. rewrite bracket_obj. unfold field_of. rewrite Hid. reflexivity.
Qed.

Lemma key_of_id row x k rest :
  row_id row = Some (DArr (x :: k :: rest)) -> server_id row = Ok k.
Proof.
  unfold row_id. destruct row as [| | | | | o]; try discriminate. intros Hid.
  unfold server_id. rewrite bracket_obj. unfold field_of. rewrite Hid. reflexivity.
Qed.

Lemma joined_row_of_kind kind right sts row K c :
  In row sts -> row_id row = Some (DArr [DStr kind; K]) ->
  (In (c, row) (flat_map (joined kind right) sts) <->
   K <> DNull /\ In c right /\ has_key K c = true).
Proof.
  intros Hrow Hid. rewrite (in_join_output kind right sts row _ c Hrow Hid). split.
  - intros (k & rest & E & H). injection E as <- _. exact H.
  - intros H. exists K, []. auto.
Qed.

Lemma not_joined_other_kind kind right sts row x rest c :
  In row sts -> row_id row = Some (DArr (x :: rest)) -> x <> DStr kind ->
  ~ In (c, row) (flat_map (joined kind right) sts).
Proof.
  intros Hrow Hid Hx Hin.
  apply (in_join_output kind right sts row _ c Hrow Hid) in Hin.
  destruct Hin as (k & rest' & E & _). injection E as -> _. congruence.
Qed.

Lemma other_shape_not_joined kind right sts row ids c :
  kind = "server" \/ kind = "table" ->
  forallb kind_fixes_length sts = true ->
  In row sts -> row_id row = Some (DArr ids) -> other_shape ids = true ->
  ~ In (c, row) (flat_map (joined kind right) sts).
Proof.
  intros Hkind Hfix Hrow Hid Hother Hin.
  apply (in_join_output kind right sts row _ c Hrow Hid) in Hin.
  destruct Hin as (k & rest & -> & _).
  rewrite forallb_forall in Hfix. specialize (Hfix row Hrow).
  unfold kind_fixes_length in Hfix. rewrite Hid in Hfix.
  destruct rest as [| y rest].
  - simpl in Hother. destruct Hkind as [-> | ->]; discriminate Hother.
  - destruct Hkind as [-> | ->]; discriminate Hfix.
Qed.

Lemma replica_stats_found conn r t sv T S row :
  valid_table (stats conn) = true ->
  bracket "table" r = Ok t -> bracket "id" t = Ok T ->
  bracket "server" r = Ok sv -> bracket "id" sv = Ok S ->
  In row (stats conn) -> row_id row = Some (DArr [DStr "table_server"; T; S]) ->
  stats_info conn r = Ok (DObj [("stats", view stats_fields row)]).
Proof.
  intros Hv Ht HT Hs HS Hrow Hid. unfold stats_info. rewrite Ht. cbn [bind].
  rewrite HT. cbn [bind]. rewrite Hs. cbn [bind]. rewrite HS. cbn [bind].
  unfold get. rewrite (distinct_find _ row _ (valid_table_distinct _ Hv) Hrow Hid).
  unfold row_id in Hid. destruct row as [| | | | | o]; try discriminate.
  cbn [default bind]. rewrite (pluck_view2 "query_engine" "storage_engine" o) by reflexivity.
  reflexivity.
Qed.

Lemma replica_stats_not_found conn r t sv T S :
  bracket "table" r = Ok t -> bracket "id" t = Ok T ->
  bracket "server" r = Ok sv -> bracket "id" sv = Ok S ->
  existsb (has_key (DArr [DStr "table_server"; T; S])) (stats conn) = false ->
  stats_info conn r = Ok (DObj [("stats", DObj [])]).
Proof.
  intros Ht HT Hs HS Hm. unfold stats_info. rewrite Ht. cbn [bind].
  rewrite HT. cbn [bind]. rewrite Hs. cbn [bind]. rewrite HS. cbn [bind].
  unfold get. rewrite (not_existsb_find _ _ Hm). reflexivity.
Qed.

(** ** The claims *)

(** C1.  A flattened replica record whose server has no row in
    [server_config] is no error: the query succeeds, and the tuple yielded
    for the record carries the server value [{id: null}], with no name and
    no tags, next to the record's own replica. *)
Theorem missing_server_is_defaulted conn recs n rec rv k :
  forallb wf_status (table_status conn) = true ->
  tables_known conn = true ->
  flatten conn = Ok recs ->
  nth_error recs n = Some rec ->
  bracket "replica" rec = Ok rv ->
  bracket "server" rv = Ok k ->
  existsb (has_key k) (server_config conn) = false ->
  exists out t st,
    query_replicas_with_stats conn = Ok out /\
    nth_error out n = Some (t, DObj [("id", DNull)], rv, st).
Proof.
  intros Hwf Hknown Hf Hn Hrv Hk Hm.
  destruct (flattened_at conn recs n rec Hwf Hf Hn) as (p & Hp & -> & _).
  rewrite flat_record_replica in Hrv. injection Hrv as <-.
  eexists. eexists. eexists. split; [apply replicas_spec; assumption |].
  rewrite (tuple_at conn n p Hp). unfold tuple_of.
  fold replica_fields. rewrite (server_view_missing conn _ k Hk Hm). reflexivity.
Qed.

Lemma missing_server_is_defaulted_witness :
  exists out t st,
    query_replicas_with_stats Scenario.conn = Ok out /\
    nth_error out 1
    = Some (t, DObj [("id", DNull)],
            DObj [("server", Scenario.B); ("state", DStr "disconnected")], st).
Proof.
  apply (missing_server_is_defaulted Scenario.conn [Scenario.rec_A; Scenario.rec_B] 1
           Scenario.rec_B _ Scenario.B); reflexivity.
Defined.

(** C2.  Classification by the identifier: a row ['server', S] passes the
    server filter with key [S], is paired by the server join with the
    configuration of [S] and takes no part in the table join; likewise a
    row ['table', T]; a row ['table_server', T, S] takes part in neither
    join and is the row whose statistics the replicas query attaches to the
    replica of table [T] on server [S]; a row of any other shape takes part
    in neither join, and is never used for a replica, whose statistics are
    empty when no row has exactly its key.  Neither join raises. *)
Theorem stats_rows_classified_by_identifier conn :
  forallb kind_fixes_length (stats conn) = true ->
  valid_table (stats conn) = true ->
  exists outs outt,
    query_servers_with_stats conn = Ok outs /\
    query_tables_with_stats conn = Ok outt /\
    (forall row S,
        In row (stats conn) -> row_id row = Some (DArr [DStr "server"; S]) ->
        is_server_stats_row row = Ok (DBool true) /\ server_id row = Ok S /\
        (forall c, In (c, row) outs <->
                   S <> DNull /\ In c (server_config conn) /\ has_key S c = true) /\
        (forall c, ~ In (c, row) outt)) /\
    (forall row T,
        In row (stats conn) -> row_id row = Some (DArr [DStr "table"; T]) ->
        is_table_stats_row row = Ok (DBool true) /\ table_id row = Ok T /\
        (forall c, In (c, row) outt <->
                   T <> DNull /\ In c (table_config conn) /\ has_key T c = true) /\
        (forall c, ~ In (c, row) outs)) /\
    (forall row T S,
        In row (stats conn) -> row_id row = Some (DArr [DStr "table_server"; T; S]) ->
        (forall c, ~ In (c, row) outs) /\ (forall c, ~ In (c, row) outt) /\
        (forall r t sv,
            bracket "table" r = Ok t -> bracket "id" t = Ok T ->
            bracket "server" r = Ok sv -> bracket "id" sv = Ok S ->
            stats_info conn r = Ok (DObj [("stats", view stats_fields row)]))) /\
    other_shapes_excluded conn /\
    (forall r t sv T S,
        bracket "table" r = Ok t -> bracket "id" t = Ok T ->
        bracket "server" r = Ok sv -> bracket "id" sv = Ok S ->
        existsb (has_key (DArr [DStr "table_server"; T; S])) (stats conn) = false ->
        stats_info conn r = Ok (DObj [("stats", DObj [])])).
Proof.
  intros Hfix Hv. pose proof (kind_fixes_length_composite _ Hfix) as Hc.
  pose proof (servers_spec conn Hc) as Es. pose proof (tables_spec conn Hc) as Et.
  eexists. eexists. split; [exact Es |]. split; [exact Et |].
  split; [| split; [| split; [| split]]].
  - intros row S Hrow Hid. split; [| split; [| split]].
    + apply (kind_row_of_id "server" row _ _ Hid).
    + apply (key_of_id row _ _ _ Hid).
    + intros c. apply joined_row_of_kind; auto.
    + intros c. apply (not_joined_other_kind "table" _ _ row _ _ c Hrow Hid). discriminate.
  - intros row T Hrow Hid. split; [| split; [| split]].
    + apply (kind_row_of_id "table" row _ _ Hid).
    + apply (key_of_id row _ _ _ Hid).
    + intros c. apply joined_row_of_kind; auto.
    + intros c. apply (not_joined_other_kind "server" _ _ row _ _ c Hrow Hid). discriminate.
  - intros row T S Hrow Hid. split; [| split].
    + intros c. apply (not_joined_other_kind "server" _ _ row _ _ c Hrow Hid). discriminate.
    + intros c. apply (not_joined_other_kind "table" _ _ row _ _ c Hrow Hid). discriminate.
    + intros r t sv Ht HT Hs HS. apply (replica_stats_found conn r t sv T S row); assumption.
  - intros row ids Hrow Hid Hother. split.
    + intros out c Eout. rewrite Es in Eout. injection Eout as <-.
      apply other_shape_not_joined with (ids := ids); auto.
    + intros out c Eout. rewrite Et in Eout. injection Eout as <-.
      apply other_shape_not_joined with (ids := ids); auto.
  - intros r t sv T S. apply replica_stats_not_found.
Qed.

Lemma stats_rows_classified_by_identifier_witness :
  query_servers_with_stats Scenario.conn
  = Ok [(Scenario.config_A, Scenario.stats_server_A)] /\
  query_tables_with_stats Scenario.conn
  = Ok [(Scenario.config_T1, Scenario.stats_table_T1)] /\
  stats_info Scenario.conn
    (DObj [("table", DObj [("id", Scenario.T1)]); ("server", DObj [("id", Scenario.A)])])
  = Ok (DObj [("stats", view stats_fields Scenario.stats_replica_T1_A)]) /\
  exists outs outt,
    query_servers_with_stats Scenario.conn = Ok outs /\
    query_tables_with_stats Scenario.conn = Ok outt /\
    (forall row S,
        In row (stats Scenario.conn) -> row_id row = Some (DArr [DStr "server"; S]) ->
        is_server_stats_row row = Ok (DBool true) /\ server_id row = Ok S /\
        (forall c, In (c, row) outs <->
                   S <> DNull /\ In c (server_config Scenario.conn) /\ has_key S c = true) /\
        (forall c, ~ In (c, row) outt)) /\
    (forall row T,
        In row (stats Scenario.conn) -> row_id row = Some (DArr [DStr "table"; T]) ->
        is_table_stats_row row = Ok (DBool true) /\ table_id row = Ok T /\
        (forall c, In (c, row) outt <->
                   T <> DNull /\ In c (table_config Scenario.conn) /\ has_key T c = true) /\
        (forall c, ~ In (c, row) outs)) /\
    (forall row T S,
        In row (stats Scenario.conn) ->
        row_id row = Some (DArr [DStr "table_server"; T; S]) ->
        (forall c, ~ In (c, row) outs) /\ (forall c, ~ In (c, row) outt) /\
        (forall r t sv,
            bracket "table" r = Ok t -> bracket "id" t = Ok T ->
            bracket "server" r = Ok sv -> bracket "id" sv = Ok S ->
            stats_info Scenario.conn r = Ok (DObj [("stats", view stats_fields row)]))) /\
    other_shapes_excluded Scenario.conn /\
    (forall r t sv T S,
        bracket "table" r = Ok t -> bracket "id" t = Ok T ->
        bracket "server" r = Ok sv -> bracket "id" sv = Ok S ->
        existsb (has_key (DArr [DStr "table_server"; T; S])) (stats Scenario.conn) = false ->
        stats_info Scenario.conn r = Ok (DObj [("stats", DObj [])])).
Proof.
  split; [reflexivity |]. split; [reflexivity |]. split; [reflexivity |].
  apply (stats_rows_classified_by_identifier Scenario.conn); reflexivity.
Defined.

(** C3.  The server join is an inner join: for a server [S] with a
    statistics row [['server', S]] and a configuration row, the tuples whose
    statistics are keyed [['server', S]] are exactly one, pairing the
    configuration of [S] with its statistics; a statistics row whose server
    has no configuration row appears in no tuple. *)
Theorem servers_inner_join conn :
  forallb has_composite_id (stats conn) = true ->
  valid_table (stats conn) = true ->
  valid_table (server_config conn) = true ->
  exists out,
    query_servers_with_stats conn = Ok out /\
    (forall S st c,
        In st (stats conn) -> row_id st = Some (DArr [DStr "server"; S]) ->
        In c (server_config conn) -> row_id c = Some S ->
        filter (fun p => has_key (DArr [DStr "server"; S]) (snd p)) out = [(c, st)]) /\
    (forall S st,
        In st (stats conn) -> row_id st = Some (DArr [DStr "server"; S]) ->
        existsb (has_key S) (server_config conn) = false ->
        forall c, ~ In (c, st) out).
Proof.
  intros Hc Hvs Hvc. eexists. split; [apply servers_spec; exact Hc |]. split.
  - intros S st c Hst Hid Hcin Hcid.
    rewrite filter_flat_map.
    rewrite (flat_map_ext _ _ (fun x => filter_joined "server" (server_config conn)
                                       (DArr [DStr "server"; S]) x)).
    rewrite <- flat_map_filter.
    destruct (valid_table_inv _ _ Hvs Hst) as (Hds & _).
    rewrite (distinct_filter _ st _ Hds Hst Hid). simpl. rewrite app_nil_r.
    unfold joined, starts_with, matches. rewrite Hid. simpl.
    destruct (valid_table_inv _ _ Hvc Hcin) as (Hdc & i & Hi & Hvk).
    assert (i = S) by congruence. subst i.
    unfold get_all.
    destruct S; try discriminate; rewrite (distinct_filter _ c _ Hdc Hcin Hcid); reflexivity.
  - intros S st Hst Hid Hm c Hin.
    apply (in_join_output "server" (server_config conn) (stats conn) st _ c Hst Hid) in Hin.
    destruct Hin as (k & rest & E & _ & Hcin & Hkey). injection E as <- _.
    assert (existsb (has_key S) (server_config conn) = true); [| congruence].
    apply existsb_exists. exists c. auto.
Qed.

Lemma servers_inner_join_witness :
  query_servers_with_stats Scenario.conn
  = Ok [(Scenario.config_A, Scenario.stats_server_A)] /\
  exists out,
    query_servers_with_stats Scenario.conn = Ok out /\
    (forall S st c,
        In st (stats Scenario.conn) -> row_id st = Some (DArr [DStr "server"; S]) ->
        In c (server_config Scenario.conn) -> row_id c = Some S ->
        filter (fun p => has_key (DArr [DStr "server"; S]) (snd p)) out = [(c, st)]) /\
    (forall S st,
        In st (stats Scenario.conn) -> row_id st = Some (DArr [DStr "server"; S]) ->
        existsb (has_key S) (server_config Scenario.conn) = false ->
        forall c, ~ In (c, st) out).
Proof.
  split; [reflexivity |].
  apply (servers_inner_join Scenario.conn); reflexivity.
Defined.

(** C4.  Flattening preserves size: on well-formed [table_status] rows it
    succeeds, and the number of flattened records is the sum over the tables
    of the sum over their shards of the number of replicas.  A table without
    shards, or whose shards have no replicas, adds nothing to the sum, and
    every record carries a replica that is an object, never [null]. *)
Theorem flatten_preserves_size conn :
  forallb wf_status (table_status conn) = true ->
  exists recs,
    flatten conn = Ok recs /\
    List.length recs = list_sum (map replica_count (table_status conn)) /\
    (forall row, (forall sh, In sh (shards_of row) -> replicas_of sh = []) ->
                 replica_count row = 0) /\
    Forall (fun rec => exists o, bracket "replica" rec = Ok (DObj o)) recs.
Proof.
  intros Hwf. eexists. split; [apply flatten_spec; exact Hwf |]. split; [| split].
  - rewrite length_map. apply replicas_in_length.
  - intros row Hrow. unfold replica_count.
    induction (shards_of row) as [| sh shs IH]; simpl; [reflexivity |].
    rewrite (Hrow sh (or_introl eq_refl)), IH; [reflexivity |].
    intros sh' Hsh'. apply Hrow. right. exact Hsh'.
  - apply Forall_forall. intros rec Hrec. apply in_map_iff in Hrec.
    destruct Hrec as (p & <- & Hp). rewrite flat_record_replica.
    destruct (wf_replica _ _ Hwf Hp) as [_ Hobj].
    destruct (snd p); try discriminate. eexists. reflexivity.
Qed.

Lemma flatten_preserves_size_witness :
  flatten Scenario.sparse = Ok [Scenario.rec_A; Scenario.rec_B] /\
  exists recs,
    flatten Scenario.sparse = Ok recs /\
    List.length recs = list_sum (map replica_count (table_status Scenario.sparse)) /\
    (forall row, (forall sh, In sh (shards_of row) -> replicas_of sh = []) ->
                 replica_count row = 0) /\
    Forall (fun rec => exists o, bracket "replica" rec = Ok (DObj o)) recs.
Proof.
  split; [reflexivity |].
  apply (flatten_preserves_size Scenario.sparse). reflexivity.
Defined.

(** C5.  A record for which [stats] has no row of key
    [['table_server', tableId, server.id]], the server being the one the
    query joins to the record, is no error: the query succeeds and the
    tuple yielded for the record carries the empty object as its
    statistics. *)
Theorem missing_stats_are_empty conn recs n rec tid srv sid :
  forallb wf_status (table_status conn) = true ->
  tables_known conn = true ->
  flatten conn = Ok recs ->
  nth_error recs n = Some rec ->
  bracket "table" rec = Ok tid ->
  server_info conn rec = Ok srv ->
  (sv <- bracket "server" srv ;; bracket "id" sv) = Ok sid ->
  existsb (has_key (DArr [DStr "table_server"; tid; sid])) (stats conn) = false ->
  exists out t s r,
    query_replicas_with_stats conn = Ok out /\
    nth_error out n = Some (t, s, r, DObj []) /\
    bracket "id" t = Ok tid /\
    bracket "server" srv = Ok s.
Proof.
  intros Hwf Hknown Hf Hn Htid Hsrv Hsid Hm.
  destruct (flattened_at conn recs n rec Hwf Hf Hn) as (p & Hp & -> & Hin).
  rewrite flat_record_table in Htid. injection Htid as <-.
  destruct (wf_replica _ _ Hwf Hin) as [_ Hobj].
  unfold flat_record in Hsrv.
  rewrite (server_info_value conn _ _ (view_is_object _ _ Hobj)) in Hsrv. injection Hsrv as <-.
  reql_step. revert Hsid. reql_step. intros Hsid.
  eexists. eexists. eexists. eexists.
  split; [apply replicas_spec; assumption |].
  split; [| split; [| reflexivity]].
  - rewrite (tuple_at conn n p Hp). unfold tuple_of.
    rewrite Hsid. unfold stats_view. rewrite (not_existsb_find _ _ Hm). reflexivity.
  - unfold tables_known in Hknown. rewrite forallb_forall in Hknown.
    destruct (existsb_find _ _ (Hknown p Hin)) as (row & Hrow).
    unfold get. rewrite Hrow. destruct (find_has_key _ _ _ Hrow) as (_ & o & -> & Hid).
    apply table_view_id. exact Hid.
Qed.

Lemma missing_stats_are_empty_witness :
  exists out t s r,
    query_replicas_with_stats Scenario.conn = Ok out /\
    nth_error out 1 = Some (t, s, r, DObj []) /\
    bracket "id" t = Ok Scenario.T1 /\
    bracket "server" (DObj [("server", DObj [("id", DNull)])]) = Ok s.
Proof.
  apply (missing_stats_are_empty Scenario.conn [Scenario.rec_A; Scenario.rec_B] 1
           Scenario.rec_B Scenario.T1 (DObj [("server", DObj [("id", DNull)])]) DNull);
    reflexivity.
Defined.

(** C6 as stated fails: with the row of [T1] gone from [table_config], the
    two flattened records come out as no tuple at all. *)
Lemma enrichment_not_total : ~ enrichment_total Scenario.orphan.
Proof.
  intros H. destruct (H [Scenario.rec_A; Scenario.rec_B] eq_refl) as (out & Hout & _).
  discriminate Hout.
Qed.

(** C6, amended.  When the table of every flattened record has a row in
    [table_config], the query yields exactly one tuple per flattened record,
    in the order of the records: the tuple carries the record's replica and
    the table of the record's identifier. *)
Theorem enrichment_one_tuple_per_record conn :
  forallb wf_status (table_status conn) = true ->
  tables_known conn = true ->
  exists recs out,
    flatten conn = Ok recs /\
    query_replicas_with_stats conn = Ok out /\
    List.length out = List.length recs /\
    (forall n rec, nth_error recs n = Some rec ->
       exists t s r st,
         nth_error out n = Some (t, s, r, st) /\
         bracket "id" t = bracket "table" rec /\
         bracket "replica" rec = Ok r).
Proof.
  intros Hwf Hknown. eexists. eexists.
  split; [apply flatten_spec; exact Hwf |].
  split; [apply replicas_spec; assumption |].
  split; [rewrite !length_map; reflexivity |].
  intros n rec Hn.
  destruct (flattened_at conn _ n rec Hwf (flatten_spec conn Hwf) Hn) as (p & Hp & -> & Hin).
  eexists. eexists. eexists. eexists.
  split; [rewrite (tuple_at conn n p Hp); reflexivity |].
  split; [| reflexivity].
  unfold tables_known in Hknown. rewrite forallb_forall in Hknown.
  destruct (existsb_find _ _ (Hknown p Hin)) as (row & Hrow).
  unfold get. rewrite Hrow. destruct (find_has_key _ _ _ Hrow) as (_ & o & -> & Hid).
  rewrite (table_view_id _ _ Hid). reflexivity.
Qed.

Lemma enrichment_one_tuple_per_record_witness :
  exists recs out,
    flatten Scenario.conn = Ok recs /\
    query_replicas_with_stats Scenario.conn = Ok out /\
    List.length out = List.length recs /\
    (forall n rec, nth_error recs n = Some rec ->
       exists t s r st,
         nth_error out n = Some (t, s, r, st) /\
         bracket "id" t = bracket "table" rec /\
         bracket "replica" rec = Ok r).
Proof.
  apply (enrichment_one_tuple_per_record Scenario.conn); reflexivity.
Defined.

(** C7.  When the table of some flattened record has no row in
    [table_config], the query fails with the non-existence error: no tuple
    with a defaulted table value is yielded. *)
Theorem missing_table_config_fails conn recs rec tid :
  forallb wf_status (table_status conn) = true ->
  flatten conn = Ok recs ->
  In rec recs ->
  bracket "table" rec = Ok tid ->
  existsb (has_key tid) (table_config conn) = false ->
  query_replicas_with_stats conn = Err ReqlNonExistenceError.
Proof.
  intros Hwf Hf Hrec Htid Hm.
  unfold query_replicas_with_stats, replicas_query, on_stream. rewrite Hf. cbn [bind].
  rewrite (flatten_spec conn Hwf) in Hf. injection Hf as <-.
  rewrite (mapM_err _ ReqlNonExistenceError); [reflexivity | |].
  - intros x Hx. apply in_map_iff in Hx. destruct Hx as (p & <- & Hp).
    unfold flat_record.
    destruct (find (has_key (fst p)) (table_config conn)) as [row|] eqn:E.
    + right. eexists. apply table_stage; [exact E |].
      apply valid_key_not_object. apply (wf_replica _ _ Hwf Hp).
    + left. apply table_stage_missing. exact E.
  - exists rec. split; [exact Hrec |].
    apply in_map_iff in Hrec. destruct Hrec as (p & <- & Hp).
    rewrite flat_record_table in Htid. injection Htid as <-.
    apply table_stage_missing. apply not_existsb_find. exact Hm.
Qed.

Lemma missing_table_config_fails_witness :
  query_replicas_with_stats Scenario.orphan = Err ReqlNonExistenceError.
Proof.
  apply (missing_table_config_fails Scenario.orphan [Scenario.rec_A; Scenario.rec_B]
           Scenario.rec_A Scenario.T1); try reflexivity.
  left. reflexivity.
Defined.

(** C8.  Flattening keeps the table identifier through both levels: every
    replica nested in a shard of a [table_status] row gives a flattened
    record whose [table] is the [id] of that row, and every flattened record
    arises in this way. *)
Theorem flatten_keeps_table_id conn :
  forallb wf_status (table_status conn) = true ->
  exists recs,
    flatten conn = Ok recs /\
    (forall row sh rp,
        In row (table_status conn) -> In sh (shards_of row) -> In rp (replicas_of sh) ->
        exists rec, In rec recs /\ bracket "table" rec = bracket "id" row /\
                    bracket "replica" rec = Ok (view replica_fields rp)) /\
    (forall rec, In rec recs ->
        exists row sh rp,
          In row (table_status conn) /\ In sh (shards_of row) /\ In rp (replicas_of sh) /\
          bracket "table" rec = bracket "id" row /\
          bracket "replica" rec = Ok (view replica_fields rp)).
Proof.
  intros Hwf. eexists. split; [apply flatten_spec; exact Hwf |].
  assert (Hid : forall row, In row (table_status conn) -> bracket "id" row = Ok (status_id row)).
  { intros row Hrow. rewrite forallb_forall in Hwf.
    destruct (wf_status_inv row (Hwf row Hrow)) as (o & i & shs & -> & Hi & _ & <- & _).
    unfold status_id, row_id. simpl. unfold field_of. rewrite Hi. reflexivity. }
  split.
  - intros row sh rp Hrow Hsh Hrp. exists (flat_record (status_id row, rp)).
    split; [| split].
    + apply in_map. apply replicas_in_iff. exists row, sh. auto.
    + rewrite (Hid row Hrow). reflexivity.
    + reflexivity.
  - intros rec Hrec. apply in_map_iff in Hrec. destruct Hrec as (p & <- & Hp).
    apply replicas_in_iff in Hp. destruct Hp as (row & sh & Hrow & Hsh & Hrp & E).
    exists row, sh, (snd p). repeat (split; [assumption |]). split.
    + rewrite (Hid row Hrow), flat_record_table, E. reflexivity.
    + reflexivity.
Qed.

Lemma flatten_keeps_table_id_witness :
  exists recs,
    flatten Scenario.conn = Ok recs /\
    (forall row sh rp,
        In row (table_status Scenario.conn) -> In sh (shards_of row) -> In rp (replicas_of sh) ->
        exists rec, In rec recs /\ bracket "table" rec = bracket "id" row /\
                    bracket "replica" rec = Ok (view replica_fields rp)) /\
    (forall rec, In rec recs ->
        exists row sh rp,
          In row (table_status Scenario.conn) /\ In sh (shards_of row) /\
          In rp (replicas_of sh) /\
          bracket "table" rec = bracket "id" row /\
          bracket "replica" rec = Ok (view replica_fields rp)).
Proof.
  apply (flatten_keeps_table_id Scenario.conn). reflexivity.
Defined.

(** C9 as stated fails: the server yielded by [query_servers_with_stats]
    is the whole [server_config] row, [cache_size_mb] included. *)
Lemma join_rows_expose_other_fields : ~ only_needed_fields Scenario.conn.
Proof.
  intros (Hs & _). specialize (Hs _ eq_refl). inversion Hs as [| p l [Hc _] _].
  discriminate Hc.
Qed.

(** C9, amended.  Every tuple yielded by [query_replicas_with_stats] carries
    only the needed fields: table within [{id, db, name}], server within
    [{id, name, tags}], replica within [{server, state}], statistics within
    [{query_engine, storage_engine}].  The other two families yield the
    joined rows of the configuration table and of [stats] as they are
    stored. *)
Theorem replica_tuples_only_needed_fields conn :
  forallb wf_status (table_status conn) = true ->
  tables_known conn = true ->
  forallb has_composite_id (stats conn) = true ->
  exists outr outs outt,
    query_replicas_with_stats conn = Ok outr /\
    Forall (fun q : replica_tuple =>
              let '(t, s, r, st) := q in
              only table_fields t = true /\ only server_fields s = true /\
              only replica_fields r = true /\ only stats_fields st = true) outr /\
    query_servers_with_stats conn = Ok outs /\
    (forall c st, In (c, st) outs -> In c (server_config conn) /\ In st (stats conn)) /\
    query_tables_with_stats conn = Ok outt /\
    (forall c st, In (c, st) outt -> In c (table_config conn) /\ In st (stats conn)).
Proof.
  intros Hwf Hknown Hc. eexists. eexists. eexists.
  split; [apply replicas_spec; assumption |]. split.
  { apply Forall_forall. intros q Hq. apply in_map_iff in Hq. destruct Hq as (p & <- & Hp).
    unfold tuple_of. unfold tables_known in Hknown. rewrite forallb_forall in Hknown.
    destruct (wf_replica _ _ Hwf Hp) as [_ Hobj].
    repeat split.
    - apply only_view. apply get_is_object. apply (Hknown p Hp).
    - apply only_server_view.
    - apply only_view. exact Hobj.
    - apply only_stats_view. }
  split; [apply servers_spec; exact Hc |].
  split; [intros c st; apply joined_members |].
  split; [apply tables_spec; exact Hc |].
  intros c st; apply joined_members.
Qed.

Lemma replica_tuples_only_needed_fields_witness :
  exists outr outs outt,
    query_replicas_with_stats Scenario.conn = Ok outr /\
    Forall (fun q : replica_tuple =>
              let '(t, s, r, st) := q in
              only table_fields t = true /\ only server_fields s = true /\
              only replica_fields r = true /\ only stats_fields st = true) outr /\
    query_servers_with_stats Scenario.conn = Ok outs /\
    (forall c st, In (c, st) outs ->
       In c (server_config Scenario.conn) /\ In st (stats Scenario.conn)) /\
    query_tables_with_stats Scenario.conn = Ok outt /\
    (forall c st, In (c, st) outt ->
       In c (table_config Scenario.conn) /\ In st (stats Scenario.conn)).
Proof.
  apply (replica_tuples_only_needed_fields Scenario.conn); reflexivity.
Defined.

(** C10.  When the server of a flattened record has no row in
    [server_config], the tuple yielded for it has the empty object as its
    statistics, whatever rows [stats] holds: the key looked up ends in
    [null], and no primary key contains [null]. *)
Theorem missing_server_implies_empty_stats conn recs n rec rv k :
  forallb wf_status (table_status conn) = true ->
  tables_known conn = true ->
  valid_table (stats conn) = true ->
  flatten conn = Ok recs ->
  nth_error recs n = Some rec ->
  bracket "replica" rec = Ok rv ->
  bracket "server" rv = Ok k ->
  existsb (has_key k) (server_config conn) = false ->
  exists out t,
    query_replicas_with_stats conn = Ok out /\
    nth_error out n = Some (t, DObj [("id", DNull)], rv, DObj []).
Proof.
  intros Hwf Hknown Hv Hf Hn Hrv Hk Hm.
  destruct (flattened_at conn recs n rec Hwf Hf Hn) as (p & Hp & -> & _).
  rewrite flat_record_replica in Hrv. injection Hrv as <-.
  eexists. eexists. split; [apply replicas_spec; assumption |].
  rewrite (tuple_at conn n p Hp). unfold tuple_of.
  fold replica_fields. rewrite (server_view_missing conn _ k Hk Hm).
  cbn [bracket on_object field_of lookup String.eqb Ascii.eqb Bool.eqb].
  unfold stats_view. rewrite (not_existsb_find _ _ (no_null_key _ _ _ Hv)). reflexivity.
Qed.

Lemma missing_server_implies_empty_stats_witness :
  existsb (has_key (DArr [DStr "table_server"; Scenario.T1; Scenario.B]))
          (stats Scenario.lagging) = true /\
  exists out t,
    query_replicas_with_stats Scenario.lagging = Ok out /\
    nth_error out 1
    = Some (t, DObj [("id", DNull)],
            DObj [("server", Scenario.B); ("state", DStr "disconnected")], DObj []).
Proof.
  split; [reflexivity |].
  apply (missing_server_implies_empty_stats Scenario.lagging
           [Scenario.rec_A; Scenario.rec_B] 1 Scenario.rec_B _ Scenario.B); reflexivity.
Defined.

(** ** Further facts *)

(** *** More on the joins *)

Lemma joined_inner kind right sts K st c :
  valid_table sts = true -> valid_table right = true ->
  In st sts -> row_id st = Some (DArr [DStr kind; K]) ->
  In c right -> row_id c = Some K ->
  filter (fun p : datum * datum => has_key (DArr [DStr kind; K]) (snd p))
         (flat_map (joined kind right) sts)
  = [(c, st)].
Proof.
  intros Hvs Hvc Hst Hid Hcin Hcid.
  rewrite filter_flat_map.
  rewrite (flat_map_ext _ _ (fun x => filter_joined kind right (DArr [DStr kind; K]) x)).
  rewrite <- flat_map_filter.
  destruct (valid_table_inv _ _ Hvs Hst) as (Hds & _).
  rewrite (distinct_filter _ st _ Hds Hst Hid). simpl. rewrite app_nil_r.
  unfold joined, starts_with, matches. rewrite Hid, datum_eqb_refl.
  destruct (valid_table_inv _ _ Hvc Hcin) as (Hdc & i & Hi & Hvk).
  assert (i = K) by congruence. subst i.
  unfold get_all.
  destruct K; try discriminate; rewrite (distinct_filter _ c _ Hdc Hcin Hcid); reflexivity.
Qed.

Lemma existsb_false_filter {A : Type} (p : A -> bool) (l : list A) :
  existsb p l = false -> filter p l = [].
Proof.
  induction l as [| x l IH]; simpl; [reflexivity |].
  destruct (p x); [discriminate | exact IH].
Qed.

Lemma get_all_at_most_one tbl k :
  distinct_keys tbl = true -> List.length (get_all tbl k) <= 1.
Proof.
  unfold get_all. induction tbl as [| x tbl IH]; simpl; [lia |].
  destruct (row_id x) as [i|] eqn:Ex; [| discriminate].
  intros H. apply andb_true_iff in H. destruct H as [Hx Hd]. apply negb_true_iff in Hx.
  destruct (has_key k x) eqn:Hk.
  - unfold has_key in Hk. rewrite Ex in Hk. apply datum_eqb_eq in Hk. subst i.
    rewrite (existsb_false_filter _ _ Hx). simpl. lia.
  - apply IH. exact Hd.
Qed.

Lemma joined_at_most_one kind right st :
  distinct_keys right = true ->
  map snd (joined kind right st) = if negb (Nat.eqb (List.length (joined kind right st)) 0)
                                   then [st] else [].
Proof.
  intros Hd. unfold joined. destruct (starts_with kind st); [| reflexivity].
  assert (Hlen : List.length (matches right st) <= 1).
  { unfold matches. destruct (row_id st) as [[| | | |[| x [| k rest]]|]|]; simpl; try lia.
    destruct k; simpl; try lia; apply get_all_at_most_one; exact Hd. }
  destruct (matches right st) as [| c [| c' l]]; simpl in *; try reflexivity; lia.
Qed.

Lemma join_sublist kind right sts :
  distinct_keys right = true ->
  map snd (flat_map (joined kind right) sts)
  = filter (fun st => negb (Nat.eqb (List.length (joined kind right st)) 0)) sts.
Proof.
  intros Hd. induction sts as [| st sts IH]; simpl; [reflexivity |].
  rewrite map_app, IH, (joined_at_most_one kind right st Hd).
  destruct (negb (Nat.eqb (List.length (joined kind right st)) 0)); reflexivity.
Qed.

Lemma composite_row_id sts st :
  forallb has_composite_id sts = true -> In st sts -> exists ids, row_id st = Some (DArr ids).
Proof.
  intros H Hin. rewrite forallb_forall in H.
  destruct (composite_inv st (H st Hin)) as (o & ids & -> & Hid). exists ids. exact Hid.
Qed.

(** *** Where the errors come from *)

Lemma npe_bind {A B : Type} (x : result A) (f : A -> result B) :
  no_python_error x = true -> (forall a, no_python_error (f a) = true) ->
  no_python_error (bind x f) = true.
Proof. destruct x as [a | e]; simpl; auto. Qed.

Lemma npe_mapM {A B : Type} (f : A -> result B) (l : list A) :
  (forall a, no_python_error (f a) = true) -> no_python_error (mapM f l) = true.
Proof.
  intros H. induction l as [| x l IH]; simpl; [reflexivity |].
  apply npe_bind; [apply H |]. intros y. apply npe_bind; [exact IH | reflexivity].
Qed.

Lemma npe_concat_map (f : datum -> result (list datum)) (l : list datum) :
  (forall a, no_python_error (f a) = true) -> no_python_error (concat_map f l) = true.
Proof.
  intros H. induction l as [| x l IH]; simpl; [reflexivity |].
  apply npe_bind; [apply H |]. intros y. apply npe_bind; [exact IH | reflexivity].
Qed.

Lemma npe_skip_map (f : datum -> result datum) (l : list datum) :
  (forall a, no_python_error (f a) = true) -> no_python_error (skip_map f l) = true.
Proof.
  intros H. induction l as [| x l IH]; simpl; [reflexivity |].
  specialize (H x). destruct (f x) as [y | []]; try discriminate; try exact IH; try reflexivity.
  apply npe_bind; [exact IH | reflexivity].
Qed.

Lemma npe_on_object (f : obj -> result datum) (d : datum) :
  (forall o, no_python_error (f o) = true) -> no_python_error (on_object f d) = true.
Proof. intros H. destruct d; simpl; auto. Qed.

Lemma npe_obj_or_seq (f : obj -> result datum) (d : datum) :
  (forall o, no_python_error (f o) = true) -> no_python_error (obj_or_seq f d) = true.
Proof.
  intros H. destruct d; simpl; auto.
  apply npe_bind; [| reflexivity]. apply npe_mapM. intros a. apply npe_on_object. exact H.
Qed.

Lemma npe_field_of k o : no_python_error (field_of k o) = true.
Proof. unfold field_of. destruct (lookup k o); reflexivity. Qed.

Lemma npe_bracket k d : no_python_error (bracket k d) = true.
Proof.
  destruct d; simpl; try reflexivity; try apply npe_field_of.
  apply npe_bind; [| reflexivity]. apply npe_skip_map. intros a.
  apply npe_on_object. apply npe_field_of.
Qed.

Lemma npe_nth i d : no_python_error (nth_ i d) = true.
Proof. destruct d; simpl; try reflexivity. destruct (nth_error items i); reflexivity. Qed.

Lemma npe_default x v : no_python_error x = true -> no_python_error (default x v) = true.
Proof. destruct x as [[] | []]; simpl; auto. Qed.

Lemma npe_filter (p : datum -> result datum) (l : list datum) :
  (forall r, no_python_error (p r) = true) -> no_python_error (filter_ p l) = true.
Proof.
  intros H. induction l as [| x l IH]; simpl; [reflexivity |].
  specialize (H x). destruct (p x) as [y | []]; try discriminate; try exact IH; try reflexivity.
  apply npe_bind; [exact IH | reflexivity].
Qed.

Lemma npe_eq_join l key right :
  (forall r, no_python_error (key r) = true) -> no_python_error (eq_join l key right) = true.
Proof.
  intros H. apply npe_concat_map. intros row.
  apply npe_bind; [apply npe_default, H |]. intros []; reflexivity.
Qed.

Lemma npe_kind_row kind row : no_python_error (kind_row kind row) = true.
Proof.
  unfold kind_row. apply npe_bind; [apply npe_bracket |]. intros i.
  apply npe_bind; [apply npe_nth | reflexivity].
Qed.

Lemma npe_server_id row : no_python_error (server_id row) = true.
Proof. unfold server_id. apply npe_bind; [apply npe_bracket |]. intros i. apply npe_nth. Qed.

(** *** Rows of a result, one by one *)

Lemma mapM_inv {A B : Type} (f : A -> result B) (l : list A) (l' : list B) :
  mapM f l = Ok l' -> forall y, In y l' -> exists x, In x l /\ f x = Ok y.
Proof.
  revert l'. induction l as [| x l IH]; simpl; intros l' H y Hy.
  - injection H as <-. destruct Hy.
  - destruct (f x) as [z |] eqn:E; simpl in H; [| discriminate].
    destruct (mapM f l) as [zs |]; simpl in H; [| discriminate].
    injection H as <-. destruct Hy as [<- | Hy]; [eauto |].
    destruct (IH zs eq_refl y Hy) as (x' & Hx' & E'). eauto.
Qed.

Lemma mapM_total {A B : Type} (f : A -> result B) (l : list A) :
  (forall x, In x l -> exists y, f x = Ok y) ->
  exists l', mapM f l = Ok l' /\ List.length l' = List.length l.
Proof.
  induction l as [| x l IH]; simpl; intros H; [exists []; auto |].
  destruct (H x (or_introl eq_refl)) as (y & ->).
  destruct IH as (l' & -> & Hlen); [intros z Hz; apply H; right; exact Hz |].
  exists (y :: l'). simpl. auto.
Qed.

Lemma concat_map_inv (f : datum -> result (list datum)) (l rows : list datum) :
  concat_map f l = Ok rows ->
  forall row, In row rows -> exists x ys, In x l /\ f x = Ok ys /\ In row ys.
Proof.
  revert rows. induction l as [| x l IH]; simpl; intros rows H row Hrow.
  - injection H as <-. destruct Hrow.
  - destruct (f x) as [ys |] eqn:E; simpl in H; [| discriminate].
    destruct (concat_map f l) as [zs |]; simpl in H; [| discriminate].
    injection H as <-. apply in_app_or in Hrow. destruct Hrow as [Hrow | Hrow].
    + exists x, ys. auto.
    + destruct (IH zs eq_refl row Hrow) as (x' & ys' & Hx' & E' & Hin). exists x', ys'. auto.
Qed.

Lemma eq_join_rows l key right rows :
  eq_join l key right = Ok rows ->
  forall row, In row rows -> exists a b, row = DObj [("left", a); ("right", b)].
Proof.
  intros H row Hrow. destruct (concat_map_inv _ _ _ H row Hrow) as (x & ys & _ & E & Hin).
  destruct (default (key x) DNull) as [k |]; simpl in E; [| discriminate].
  assert (Hys : ys = [] \/ ys = map (fun v => DObj [("left", x); ("right", v)]) (get_all right k)).
  { destruct k; injection E as <-; auto. }
  destruct Hys as [-> | ->]; [destruct Hin |].
  apply in_map_iff in Hin. destruct Hin as (v & <- & _). eauto.
Qed.

Lemma join_rows_total rows :
  (forall row, In row rows -> exists a b, row = DObj [("left", a); ("right", b)]) ->
  exists out, join_rows rows = Ok out /\ List.length out = List.length rows.
Proof.
  intros H. apply mapM_total. intros row Hrow. destruct (H row Hrow) as (a & b & ->).
  eexists. reflexivity.
Qed.

Lemma npe_join_query kind st_tbl right :
  no_python_error
    (rows <- (l <- filter_ (kind_row kind) st_tbl ;; eq_join l server_id right) ;; join_rows rows)
  = true.
Proof.
  destruct (filter_ (kind_row kind) st_tbl) as [l | e] eqn:Ef.
  - cbn [bind]. destruct (eq_join l server_id right) as [rows | e] eqn:Ej.
    + cbn [bind]. destruct (join_rows_total rows (eq_join_rows _ _ _ _ Ej)) as (out & -> & _).
      reflexivity.
    + cbn [bind]. pose proof (npe_eq_join l server_id right npe_server_id) as H.
      rewrite Ej in H. exact H.
  - cbn [bind]. pose proof (npe_filter (kind_row kind) st_tbl (npe_kind_row kind)) as H.
    rewrite Ef in H. exact H.
Qed.

Lemma filter_logic_error (p : datum -> result datum) (l : list datum) :
  (forall r, no_python_error (p r) = true) ->
  (exists r, In r l /\ p r = Err ReqlQueryLogicError) ->
  filter_ p l = Err ReqlQueryLogicError.
Proof.
  intros Hp. induction l as [| x l IH]; intros (r & Hr & Er); [destruct Hr |].
  simpl. specialize (Hp x). destruct (p x) as [v | []] eqn:E; try discriminate; try reflexivity.
  - destruct Hr as [-> | Hr]; [congruence |]. rewrite IH by eauto. reflexivity.
  - destruct Hr as [-> | Hr]; [congruence |]. apply IH. eauto.
Qed.

Lemma kind_row_not_a_sequence kind row i :
  row_id row = Some i -> not_a_sequence i = true ->
  kind_row kind row = Err ReqlQueryLogicError.
Proof.
  unfold row_id. destruct row as [| | | | | o]; try discriminate. intros Hid Hi.
  unfold kind_row. rewrite bracket_obj. unfold field_of. rewrite Hid. cbn [bind].
  destruct i; try discriminate; reflexivity.
Qed.

Lemma server_view_present conn rv k c :
  valid_table (server_config conn) = true ->
  bracket "server" rv = Ok k -> In c (server_config conn) -> row_id c = Some k ->
  server_view conn rv = view server_fields c /\ bracket "id" (view server_fields c) = Ok k.
Proof.
  intros Hv Hk Hc Hid. unfold server_view.
  rewrite Hk, (distinct_find _ c _ (valid_table_distinct _ Hv) Hc Hid).
  split; [reflexivity |].
  unfold row_id in Hid. destruct c as [| | | | | o]; try discriminate.
  unfold view, server_fields, opt_field. simpl. rewrite Hid. reflexivity.
Qed.

(** *** What the replicas query reads *)

Lemma find_filter {A : Type} (p q : A -> bool) (l : list A) :
  (forall x, p x = true -> q x = true) -> find p (filter q l) = find p l.
Proof.
  intros H. induction l as [| x l IH]; simpl; [reflexivity |].
  destruct (q x) eqn:Eq; simpl.
  - destruct (p x); [reflexivity | exact IH].
  - destruct (p x) eqn:Ep; [| exact IH]. rewrite (H x Ep) in Eq. discriminate.
Qed.

Lemma has_key_starts_with kind rest r :
  has_key (DArr (DStr kind :: rest)) r = true -> starts_with kind r = true.
Proof.
  unfold has_key, starts_with. destruct (row_id r) as [i|]; [| discriminate].
  intros H. apply datum_eqb_eq in H. subst i. apply datum_eqb_refl.
Qed.

Lemma get_replica_stats tbl tid sid :
  get (filter (starts_with "table_server") tbl) (DArr [DStr "table_server"; tid; sid])
  = get tbl (DArr [DStr "table_server"; tid; sid]).
Proof.
  unfold get. rewrite find_filter; [reflexivity |].
  intros r. apply has_key_starts_with.
Qed.

Lemma mapM_ext {A B : Type} (f g : A -> result B) (l : list A) :
  (forall x, f x = g x) -> mapM f l = mapM g l.
Proof.
  intros H. induction l as [| x l IH]; simpl; [reflexivity |]. rewrite H, IH. reflexivity.
Qed.

Lemma stats_info_ext st1 st2 sc tc ts row :
  filter (starts_with "table_server") st1 = filter (starts_with "table_server") st2 ->
  stats_info {| stats := st1; server_config := sc; table_config := tc; table_status := ts |} row
  = stats_info {| stats := st2; server_config := sc; table_config := tc; table_status := ts |} row.
Proof.
  intros H. unfold stats_info. cbn [stats].
  destruct (bracket "table" row) as [t |]; [| reflexivity]. cbn [bind].
  destruct (bracket "id" t) as [tid |]; [| reflexivity]. cbn [bind].
  destruct (bracket "server" row) as [sv |]; [| reflexivity]. cbn [bind].
  destruct (bracket "id" sv) as [sid |]; [| reflexivity]. cbn [bind].
  rewrite <- (get_replica_stats st1), <- (get_replica_stats st2), H. reflexivity.
Qed.

Lemma replicas_in_app ts1 ts2 : replicas_in (ts1 ++ ts2) = replicas_in ts1 ++ replicas_in ts2.
Proof. unfold replicas_in. apply flat_map_app. Qed.

(** *** Fields of the rows the replicas query returns *)

Lemma lookup_remove_other k k' o : String.eqb k' k = false ->
  lookup k' (remove_key k o) = lookup k' o.
Proof.
  intros Hk. induction o as [| [k0 v] o IH]; simpl; [reflexivity |].
  destruct (String.eqb k k0) eqn:E.
  - apply String.eqb_eq in E. subst k0. rewrite Hk. exact IH.
  - simpl. rewrite IH. reflexivity.
Qed.

Lemma lookup_remove_same k o : lookup k (remove_key k o) = None.
Proof.
  induction o as [| [k0 v] o IH]; simpl; [reflexivity |].
  destruct (String.eqb k k0) eqn:E; [exact IH |]. simpl. rewrite E. exact IH.
Qed.

Lemma lookup_overwrite_same k v o : lookup k (overwrite k v o) = Some v.
Proof.
  induction o as [| [k0 v0] o IH]; simpl.
  - rewrite String.eqb_refl. reflexivity.
  - destruct (String.eqb k k0) eqn:E; simpl.
    + rewrite String.eqb_refl. reflexivity.
    + rewrite E. exact IH.
Qed.

Lemma lookup_overwrite_other k k' v o : String.eqb k' k = false ->
  lookup k' (overwrite k v o) = lookup k' o.
Proof.
  intros Hk. induction o as [| [k0 v0] o IH]; simpl.
  - rewrite Hk. reflexivity.
  - destruct (String.eqb k k0) eqn:E; simpl.
    + apply String.eqb_eq in E. subst k0. rewrite Hk. apply lookup_remove_other. exact Hk.
    + rewrite IH. reflexivity.
Qed.

(** A merge of a single field [k] into the rows of a stream: each row that
    comes out has the field, and its other fields are those of the row that
    went in. *)
Lemma merge_stage (f : datum -> result datum) (k : string) (l l' : list datum) :
  (forall row v, f row = Ok v -> exists info, v = DObj [(k, info)]) ->
  on_stream (merge_obj f) l = Ok l' ->
  forall y, In y l' ->
    exists o0 o, In (DObj o0) l /\ y = DObj o /\ lookup k o <> None /\
                 forall k', String.eqb k' k = false -> lookup k' o = lookup k' o0.
Proof.
  intros Hf H y Hy. destruct (mapM_inv _ _ _ H y Hy) as (x & Hx & E).
  destruct x as [| | | | | o0]; try discriminate E.
  unfold on_object, merge_obj in E.
  destruct (f (DObj o0)) as [v |] eqn:Ev; [| discriminate E]. cbn [bind] in E.
  destruct (Hf _ _ Ev) as (info & ->). injection E as <-.
  exists o0. eexists. split; [exact Hx |]. split; [reflexivity |]. split.
  - rewrite lookup_overwrite_same. discriminate.
  - intros k' Hk'. apply lookup_overwrite_other. exact Hk'.
Qed.

Lemma table_info_shape conn row v :
  table_info conn row = Ok v -> exists info, v = DObj [("table", info)].
Proof.
  unfold table_info. destruct (bracket "table" row) as [t |]; [| discriminate]. cbn [bind].
  destruct (pluck _ _) as [info |]; [| discriminate]. cbn [bind].
  intros H. injection H as <-. eauto.
Qed.

Lemma server_info_shape conn row v :
  server_info conn row = Ok v -> exists info, v = DObj [("server", info)].
Proof.
  unfold server_info. destruct (default _ _) as [s |]; [| discriminate]. cbn [bind].
  destruct (pluck _ _) as [info |]; [| discriminate]. cbn [bind].
  intros H. injection H as <-. eauto.
Qed.

Lemma stats_info_shape conn row v :
  stats_info conn row = Ok v -> exists info, v = DObj [("stats", info)].
Proof.
  unfold stats_info. destruct (default _ _) as [s |]; [| discriminate]. cbn [bind].
  destruct (pluck _ _) as [info |]; [| discriminate]. cbn [bind].
  intros H. injection H as <-. eauto.
Qed.

Lemma flatten_rows_have_replica conn recs :
  flatten conn = Ok recs ->
  forall rec, In rec recs -> exists o, rec = DObj o /\ lookup "replica" o <> None.
Proof.
  unfold flatten.
  destruct (on_stream (pluck_obj _) _) as [r1 |]; [| discriminate]. cbn [bind].
  destruct (on_stream (merge_obj _) r1) as [r2 |]; [| discriminate]. cbn [bind].
  destruct (on_stream (without_obj "id") r2) as [r3 |]; [| discriminate]. cbn [bind].
  destruct (concat_map _ r3) as [r4 |]; [| discriminate]. cbn [bind].
  destruct (on_stream (without_obj "shards") r4) as [r5 |]; [| discriminate]. cbn [bind].
  destruct (concat_map _ r5) as [r6 |] eqn:E6; [| discriminate]. cbn [bind].
  intros H7 rec Hrec.
  destruct (mapM_inv _ _ _ H7 rec Hrec) as (x6 & Hx6 & E7).
  destruct x6 as [| | | | | o6]; try discriminate E7.
  unfold on_object, without_obj in E7. injection E7 as <-.
  exists (remove_key "replicas" o6). split; [reflexivity |].
  rewrite lookup_remove_other by reflexivity.
  destruct (concat_map_inv _ _ _ E6 _ Hx6) as (x5 & ys & _ & Ey & Hin).
  destruct (bracket "replicas" x5) as [rps |]; [| discriminate Ey]. cbn [bind] in Ey.
  unfold map_ in Ey. destruct (as_seq rps) as [items |]; [| discriminate Ey]. cbn [bind] in Ey.
  destruct (mapM_inv _ _ _ Ey _ Hin) as (rp & _ & Em).
  unfold merge_with, obj_or_seq in Em.
  destruct x5 as [| | | | items5 | o5]; try discriminate Em.
  - destruct (mapM _ items5); discriminate Em.
  - unfold on_object, merge_obj in Em.
    destruct (pluck (fields ["server"; "state"]) rp) as [rv |]; [| discriminate Em].
    cbn [bind] in Em. injection Em as <-. rewrite lookup_overwrite_same. discriminate.
Qed.

Lemma replicas_query_rows conn rows :
  replicas_query conn = Ok rows ->
  forall row, In row rows ->
    exists o, row = DObj o /\ lookup "table" o <> None /\ lookup "server" o <> None /\
              lookup "replica" o <> None /\ lookup "stats" o <> None.
Proof.
  unfold replicas_query.
  destruct (flatten conn) as [r0 |] eqn:E0; [| discriminate]. cbn [bind].
  destruct (on_stream (merge_obj (table_info conn)) r0) as [r1 |] eqn:E1; [| discriminate].
  cbn [bind].
  destruct (on_stream (merge_obj (server_info conn)) r1) as [r2 |] eqn:E2; [| discriminate].
  cbn [bind]. intros E3 row Hrow.
  destruct (merge_stage _ "stats" _ _ (stats_info_shape conn) E3 row Hrow)
    as (o2 & o3 & H2 & -> & Hst & K3).
  destruct (merge_stage _ "server" _ _ (server_info_shape conn) E2 _ H2)
    as (o1 & o2' & H1 & E & Hsv & K2). injection E as <-.
  destruct (merge_stage _ "table" _ _ (table_info_shape conn) E1 _ H1)
    as (o0 & o1' & H0 & E & Htb & K1). injection E as <-.
  destruct (flatten_rows_have_replica conn r0 E0 _ H0) as (o0' & E & Hrp). injection E as <-.
  exists o3. split; [reflexivity |].
  rewrite (K3 "table"), (K3 "server"), (K3 "replica") by reflexivity.
  rewrite (K2 "table"), (K2 "replica") by reflexivity.
  rewrite (K1 "replica") by reflexivity. auto.
Qed.

Lemma npe_pluck p d : no_python_error (pluck p d) = true.
Proof.
  apply npe_obj_or_seq. intros o. unfold pluck_obj. destruct (project p (DObj o)); reflexivity.
Qed.

Lemma npe_merge_obj f o :
  (forall d, no_python_error (f d) = true) -> no_python_error (merge_obj f o) = true.
Proof. intros H. apply npe_bind; [apply H | reflexivity]. Qed.

Lemma npe_map_ f d :
  (forall x, no_python_error (f x) = true) -> no_python_error (map_ f d) = true.
Proof.
  intros H. apply npe_bind; [destruct d; reflexivity |]. intros items. apply npe_mapM. exact H.
Qed.

Lemma npe_merge_stage f l :
  (forall d, no_python_error (f d) = true) ->
  no_python_error (on_stream (merge_obj f) l) = true.
Proof.
  intros H. apply npe_mapM. intros a. apply npe_on_object. intros o. apply npe_merge_obj, H.
Qed.

Lemma npe_without_stage k l : no_python_error (on_stream (without_obj k) l) = true.
Proof. apply npe_mapM. intros a. apply npe_on_object. reflexivity. Qed.

Lemma npe_flatten conn : no_python_error (flatten conn) = true.
Proof.
  unfold flatten.
  apply npe_bind.
  { apply npe_mapM. intros a. apply npe_on_object. intros o. unfold pluck_obj.
    destruct (project _ _); reflexivity. }
  intros r1. apply npe_bind.
  { apply npe_merge_stage. intros d. apply npe_bind; [apply npe_bracket | reflexivity]. }
  intros r2. apply npe_bind; [apply npe_without_stage |].
  intros r3. apply npe_bind.
  { apply npe_concat_map. intros row. apply npe_bind; [apply npe_bracket |].
    intros shards. apply npe_map_. intros shard. apply npe_obj_or_seq. intros o.
    apply npe_merge_obj. intros _. apply npe_pluck. }
  intros r4. apply npe_bind; [apply npe_without_stage |].
  intros r5. apply npe_bind.
  { apply npe_concat_map. intros row. apply npe_bind; [apply npe_bracket |].
    intros rps. apply npe_map_. intros rp. apply npe_obj_or_seq. intros o.
    apply npe_merge_obj. intros _. apply npe_bind; [apply npe_pluck | reflexivity]. }
  intros r6. apply npe_without_stage.
Qed.

Lemma npe_table_info conn d : no_python_error (table_info conn d) = true.
Proof.
  unfold table_info. apply npe_bind; [apply npe_bracket |]. intros t.
  apply npe_bind; [apply npe_pluck | reflexivity].
Qed.

Lemma npe_server_info conn d : no_python_error (server_info conn d) = true.
Proof.
  unfold server_info. apply npe_bind.
  - apply npe_default. apply npe_bind; [apply npe_bracket |]. intros rp.
    apply npe_bind; [apply npe_bracket | reflexivity].
  - intros s. apply npe_bind; [apply npe_pluck | reflexivity].
Qed.

Lemma npe_stats_info conn d : no_python_error (stats_info conn d) = true.
Proof.
  unfold stats_info. apply npe_bind.
  - apply npe_default. apply npe_bind; [apply npe_bracket |]. intros t.
    apply npe_bind; [apply npe_bracket |]. intros tid.
    apply npe_bind; [apply npe_bracket |]. intros sv.
    apply npe_bind; [apply npe_bracket | reflexivity].
  - intros s. apply npe_bind; [apply npe_pluck | reflexivity].
Qed.

Lemma npe_replicas_query conn : no_python_error (replicas_query conn) = true.
Proof.
  unfold replicas_query. apply npe_bind; [apply npe_flatten |].
  intros r0. apply npe_bind; [apply npe_merge_stage, npe_table_info |].
  intros r1. apply npe_bind; [apply npe_merge_stage, npe_server_info |].
  intros r2. apply npe_merge_stage, npe_stats_info.
Qed.

(** *** Rows of [table_status] that miss a field *)

Lemma mapM_fwd {A B : Type} (f : A -> result B) (l : list A) (l' : list B) :
  mapM f l = Ok l' -> forall x, In x l -> exists y, f x = Ok y /\ In y l'.
Proof.
  revert l'. induction l as [| a l IH]; simpl; intros l' H x Hx; [destruct Hx |].
  destruct (f a) as [b |] eqn:E; simpl in H; [| discriminate].
  destruct (mapM f l) as [bs |]; simpl in H; [| discriminate].
  injection H as <-. destruct Hx as [<- | Hx].
  - exists b. simpl. auto.
  - destruct (IH bs eq_refl x Hx) as (y & Ey & Hy). exists y. simpl. auto.
Qed.

Lemma concat_map_fwd (f : datum -> result (list datum)) (l rows : list datum) :
  concat_map f l = Ok rows -> forall x, In x l -> exists ys, f x = Ok ys.
Proof.
  revert rows. induction l as [| a l IH]; simpl; intros rows H x Hx; [destruct Hx |].
  destruct (f a) as [ys |] eqn:E; simpl in H; [| discriminate].
  destruct (concat_map f l) as [zs |]; simpl in H; [| discriminate].
  destruct Hx as [<- | Hx]; [eauto | apply (IH zs eq_refl x Hx)].
Qed.

Lemma pluck_status_fields o :
  exists r,
    pluck_obj (PVec [PStr "id"; PMap [("shards", PVec [PStr "replicas"])]]) o = Ok (DObj r) /\
    lookup "id" r = lookup "id" o /\
    (lookup "shards" o = None -> lookup "shards" r = None).
Proof.
  unfold pluck_obj. cbn -[lookup mapO].
  destruct (lookup "id" o) as [i |] eqn:Ei; destruct (lookup "shards" o) as [val |] eqn:Es.
  - destruct (match val with DArr items => _ | _ => _ end) as [sub |];
      eexists; (split; [reflexivity |]); split; try reflexivity; discriminate.
  - eexists. split; [reflexivity |]. split; reflexivity.
  - destruct (match val with DArr items => _ | _ => _ end) as [sub |];
      eexists; (split; [reflexivity |]); split; try reflexivity; discriminate.
  - eexists. split; [reflexivity |]. split; reflexivity.
Qed.

(** *** What [pluck] keeps *)

Lemma lookup_app k (o1 o2 : obj) :
  lookup k (o1 ++ o2) = match lookup k o1 with Some v => Some v | None => lookup k o2 end.
Proof.
  induction o1 as [| [k0 v0] o1 IH]; simpl; [reflexivity |].
  destruct (String.eqb k k0); [reflexivity | exact IH].
Qed.

Lemma lookup_fields ks o k :
  lookup k (flat_map (fun k' => opt_field k' o) ks)
  = if existsb (String.eqb k) ks then lookup k o else None.
Proof.
  induction ks as [| a ks IH]; simpl; [reflexivity |].
  rewrite lookup_app, IH. unfold opt_field.
  destruct (String.eqb k a) eqn:E; simpl.
  - apply String.eqb_eq in E. subst a.
    destruct (lookup k o) as [v |] eqn:Ev; simpl.
    + rewrite String.eqb_refl. reflexivity.
    + destruct (existsb (String.eqb k) ks); reflexivity.
  - destruct (lookup a o); simpl; [rewrite E |]; reflexivity.
Qed.

(** *** Rows yielded once *)

Lemma distinct_keys_NoDup tbl : distinct_keys tbl = true -> NoDup tbl.
Proof.
  induction tbl as [| r tbl IH]; simpl; [constructor |].
  destruct (row_id r) as [i |] eqn:Er; [| discriminate].
  intros H. apply andb_true_iff in H. destruct H as [Hr Hd]. apply negb_true_iff in Hr.
  constructor; [| apply IH; exact Hd].
  intros Hin. assert (existsb (has_key i) tbl = true); [| congruence].
  apply existsb_exists. exists r. split; [exact Hin |].
  unfold has_key. rewrite Er. apply datum_eqb_refl.
Qed.

Lemma joined_needs_kind kind right st :
  starts_with kind st = false -> joined kind right st = [].
Proof. unfold joined. intros ->. reflexivity. Qed.

Lemma starts_with_one_kind st :
  starts_with "server" st = true -> starts_with "table" st = false.
Proof.
  unfold starts_with. destruct (row_id st) as [[| | | | [| x ids] |] |]; try discriminate.
  intros H. apply datum_eqb_eq in H. subst x. reflexivity.
Qed.

Lemma filters_apart {A : Type} (p q : A -> bool) (l : list A) :
  (forall x, p x = true -> q x = false) ->
  List.length (filter p l) + List.length (filter q l) <= List.length l.
Proof.
  intros H. induction l as [| x l IH]; simpl; [lia |].
  destruct (p x) eqn:Ep.
  - rewrite (H x Ep). simpl. lia.
  - destruct (q x); simpl; lia.
Qed.

(** ** Further properties of the module *)

(** X1.  The table join is an inner join: for a table [T] with a statistics
    row [['table', T]] and a [table_config] row, the tuples whose statistics
    are keyed [['table', T]] are exactly one, pairing the configuration of
    [T] with its statistics; a statistics row whose table has no
    configuration row appears in no tuple. *)
Theorem tables_inner_join conn :
  forallb has_composite_id (stats conn) = true ->
  valid_table (stats conn) = true ->
  valid_table (table_config conn) = true ->
  exists out,
    query_tables_with_stats conn = Ok out /\
    (forall T st c,
        In st (stats conn) -> row_id st = Some (DArr [DStr "table"; T]) ->
        In c (table_config conn) -> row_id c = Some T ->
        filter (fun p => has_key (DArr [DStr "table"; T]) (snd p)) out = [(c, st)]) /\
    (forall T st,
        In st (stats conn) -> row_id st = Some (DArr [DStr "table"; T]) ->
        existsb (has_key T) (table_config conn) = false ->
        forall c, ~ In (c, st) out).
Proof.
  intros Hc Hvs Hvc. eexists. split; [apply tables_spec; exact Hc |]. split.
  - intros T st c Hst Hid Hcin Hcid. apply joined_inner; assumption.
  - intros T st Hst Hid Hm c Hin.
    apply (in_join_output "table" (table_config conn) (stats conn) st _ c Hst Hid) in Hin.
    destruct Hin as (k & rest & E & _ & Hcin & Hkey). injection E as <- _.
    assert (existsb (has_key T) (table_config conn) = true); [| congruence].
    apply existsb_exists. exists c. auto.
Qed.

Lemma tables_inner_join_witness :
  query_tables_with_stats Scenario.conn = Ok [(Scenario.config_T1, Scenario.stats_table_T1)] /\
  exists out,
    query_tables_with_stats Scenario.conn = Ok out /\
    (forall T st c,
        In st (stats Scenario.conn) -> row_id st = Some (DArr [DStr "table"; T]) ->
        In c (table_config Scenario.conn) -> row_id c = Some T ->
        filter (fun p => has_key (DArr [DStr "table"; T]) (snd p)) out = [(c, st)]) /\
    (forall T st,
        In st (stats Scenario.conn) -> row_id st = Some (DArr [DStr "table"; T]) ->
        existsb (has_key T) (table_config Scenario.conn) = false ->
        forall c, ~ In (c, st) out).
Proof.
  split; [reflexivity |].
  apply (tables_inner_join Scenario.conn); reflexivity.
Defined.

(** X2.  No statistics row is yielded by both joins: a row that comes out of
    [query_servers_with_stats] comes out of no tuple of
    [query_tables_with_stats]. *)
Theorem join_families_are_disjoint conn :
  forallb has_composite_id (stats conn) = true ->
  exists outs outt,
    query_servers_with_stats conn = Ok outs /\
    query_tables_with_stats conn = Ok outt /\
    (forall st c c', In (c, st) outs -> ~ In (c', st) outt).
Proof.
  intros Hc. eexists. eexists.
  split; [apply servers_spec; exact Hc |].
  split; [apply tables_spec; exact Hc |].
  intros st c c' Hs Ht.
  destruct (joined_members _ _ _ _ _ Hs) as [_ Hst].
  destruct (composite_row_id _ _ Hc Hst) as (ids & Hid).
  apply (in_join_output "server" _ _ st ids c Hst Hid) in Hs.
  apply (in_join_output "table" _ _ st ids c' Hst Hid) in Ht.
  destruct Hs as (S & rest & -> & _). destruct Ht as (T & rest' & E & _). discriminate E.
Qed.

Lemma join_families_are_disjoint_witness :
  exists outs outt,
    query_servers_with_stats Scenario.conn = Ok outs /\
    query_tables_with_stats Scenario.conn = Ok outt /\
    (forall st c c', In (c, st) outs -> ~ In (c', st) outt).
Proof.
  apply (join_families_are_disjoint Scenario.conn). reflexivity.
Defined.

(** X3.  When the rows of [stats] and of the configuration tables have
    distinct keys, neither join yields a statistics row twice, and the
    tuples of the two joins together are no more than the rows of [stats]. *)
Theorem joins_yield_no_row_twice conn :
  forallb has_composite_id (stats conn) = true ->
  valid_table (stats conn) = true ->
  valid_table (server_config conn) = true ->
  valid_table (table_config conn) = true ->
  exists outs outt,
    query_servers_with_stats conn = Ok outs /\
    query_tables_with_stats conn = Ok outt /\
    NoDup (map snd outs) /\
    NoDup (map snd outt) /\
    List.length outs + List.length outt <= List.length (stats conn).
Proof.
  intros Hc Hv Hs Ht.
  pose proof (distinct_keys_NoDup _ (valid_table_distinct _ Hv)) as Hnd.
  pose proof (join_sublist "server" _ (stats conn) (valid_table_distinct _ Hs)) as Es.
  pose proof (join_sublist "table" _ (stats conn) (valid_table_distinct _ Ht)) as Et.
  eexists. eexists.
  split; [apply servers_spec; exact Hc |].
  split; [apply tables_spec; exact Hc |].
  split; [rewrite Es; apply NoDup_filter; exact Hnd |].
  split; [rewrite Et; apply NoDup_filter; exact Hnd |].
  rewrite <- (length_map snd (flat_map (joined "server" _) _)), Es.
  rewrite <- (length_map snd (flat_map (joined "table" _) _)), Et.
  apply filters_apart. intros st Hst.
  destruct (starts_with "server" st) eqn:E.
  - rewrite (joined_needs_kind "table" _ st (starts_with_one_kind st E)). reflexivity.
  - rewrite (joined_needs_kind "server" _ st E) in Hst. discriminate Hst.
Qed.

Lemma joins_yield_no_row_twice_witness :
  exists outs outt,
    query_servers_with_stats Scenario.conn = Ok outs /\
    query_tables_with_stats Scenario.conn = Ok outt /\
    NoDup (map snd outs) /\
    NoDup (map snd outt) /\
    List.length outs + List.length outt <= List.length (stats Scenario.conn).
Proof.
  apply (joins_yield_no_row_twice Scenario.conn); reflexivity.
Defined.

(** X4.  [query_cluster_stats] returns the row of [stats] keyed
    [['cluster']], and [null] when there is none; what it returns is paired
    with nothing by either join. *)
Theorem cluster_stats_row conn :
  forallb has_composite_id (stats conn) = true ->
  valid_table (stats conn) = true ->
  (existsb (has_key (DArr [DStr "cluster"])) (stats conn) = false ->
   query_cluster_stats conn = DNull) /\
  (forall row, In row (stats conn) -> row_id row = Some (DArr [DStr "cluster"]) ->
               query_cluster_stats conn = row) /\
  exists outs outt,
    query_servers_with_stats conn = Ok outs /\
    query_tables_with_stats conn = Ok outt /\
    (forall c, ~ In (c, query_cluster_stats conn) outs) /\
    (forall c, ~ In (c, query_cluster_stats conn) outt).
Proof.
  intros Hc Hv. unfold query_cluster_stats, get. split; [| split].
  - intros Hm. rewrite (not_existsb_find _ _ Hm). reflexivity.
  - intros row Hin Hid. unfold valid_table in Hv. apply andb_true_iff in Hv.
    rewrite (distinct_find _ row _ (proj2 Hv) Hin Hid). reflexivity.
  - eexists. eexists.
    split; [apply servers_spec; exact Hc |].
    split; [apply tables_spec; exact Hc |].
    assert (Hno : forall kind right c,
               ~ In (c, match find (has_key (DArr [DStr "cluster"])) (stats conn) with
                        | Some r => r | None => DNull end)
                    (flat_map (joined kind right) (stats conn))).
    { intros kind right c Hin. destruct (joined_members _ _ _ _ _ Hin) as [_ Hst].
      destruct (find (has_key (DArr [DStr "cluster"])) (stats conn)) as [row|] eqn:Hf.
      - destruct (find_has_key _ _ _ Hf) as (_ & o & -> & Hid).
        apply (in_join_output kind right _ (DObj o) [DStr "cluster"] c Hst Hid) in Hin.
        destruct Hin as (k & rest & E & _). discriminate E.
      - destruct (composite_row_id _ _ Hc Hst) as (ids & Hid). discriminate Hid. }
    split; intros c; apply Hno.
Qed.

Lemma cluster_stats_row_witness :
  query_cluster_stats Scenario.conn = Scenario.stats_cluster /\
  query_cluster_stats Cases.replicas_only = DNull /\
  (existsb (has_key (DArr [DStr "cluster"])) (stats Scenario.conn) = false ->
   query_cluster_stats Scenario.conn = DNull) /\
  (forall row, In row (stats Scenario.conn) -> row_id row = Some (DArr [DStr "cluster"]) ->
               query_cluster_stats Scenario.conn = row) /\
  exists outs outt,
    query_servers_with_stats Scenario.conn = Ok outs /\
    query_tables_with_stats Scenario.conn = Ok outt /\
    (forall c, ~ In (c, query_cluster_stats Scenario.conn) outs) /\
    (forall c, ~ In (c, query_cluster_stats Scenario.conn) outt).
Proof.
  split; [reflexivity |]. split; [reflexivity |].
  apply (cluster_stats_row Scenario.conn); reflexivity.
Defined.

(** X5.  The table of a yielded replica tuple is the [table_config] row of
    the record's table, cut down to [id], [db] and [name]; its [id] is the
    identifier the record carries. *)
Theorem table_of_a_replica conn recs n rec tid tc :
  forallb wf_status (table_status conn) = true ->
  tables_known conn = true ->
  valid_table (table_config conn) = true ->
  flatten conn = Ok recs ->
  nth_error recs n = Some rec ->
  bracket "table" rec = Ok tid ->
  In tc (table_config conn) ->
  row_id tc = Some tid ->
  exists out s r st,
    query_replicas_with_stats conn = Ok out /\
    nth_error out n = Some (view table_fields tc, s, r, st) /\
    bracket "id" (view table_fields tc) = Ok tid.
Proof.
  intros Hwf Hknown Hv Hf Hn Htid Htc Hid.
  destruct (flattened_at conn recs n rec Hwf Hf Hn) as (p & Hp & -> & Hin).
  rewrite flat_record_table in Htid. injection Htid as <-.
  eexists. eexists. eexists. eexists.
  split; [apply replicas_spec; assumption |].
  rewrite (tuple_at conn n p Hp). unfold tuple_of, get.
  rewrite (distinct_find _ tc _ (valid_table_distinct _ Hv) Htc Hid).
  split; [reflexivity |].
  unfold row_id in Hid. destruct tc as [| | | | | o]; try discriminate.
  apply table_view_id. exact Hid.
Qed.

Lemma table_of_a_replica_witness :
  exists out s r st,
    query_replicas_with_stats Scenario.conn = Ok out /\
    nth_error out 1
    = Some (DObj [("id", Scenario.T1); ("db", DStr "d"); ("name", DStr "t1")], s, r, st) /\
    bracket "id" (view table_fields Scenario.config_T1) = Ok Scenario.T1.
Proof.
  apply (table_of_a_replica Scenario.conn [Scenario.rec_A; Scenario.rec_B] 1 Scenario.rec_B
           Scenario.T1 Scenario.config_T1);
    try reflexivity.
  left. reflexivity.
Defined.

(** X6.  When the server of a replica has a [server_config] row, the server
    of the tuple is that row cut down to [id], [name] and [tags], and its
    [id] is the server the replica names: the default is not used. *)
Theorem server_of_a_replica conn recs n rec rv k c :
  forallb wf_status (table_status conn) = true ->
  tables_known conn = true ->
  valid_table (server_config conn) = true ->
  flatten conn = Ok recs ->
  nth_error recs n = Some rec ->
  bracket "replica" rec = Ok rv ->
  bracket "server" rv = Ok k ->
  In c (server_config conn) ->
  row_id c = Some k ->
  exists out t st,
    query_replicas_with_stats conn = Ok out /\
    nth_error out n = Some (t, view server_fields c, rv, st) /\
    bracket "id" (view server_fields c) = Ok k.
Proof.
  intros Hwf Hknown Hv Hf Hn Hrv Hk Hc Hid.
  destruct (flattened_at conn recs n rec Hwf Hf Hn) as (p & Hp & -> & Hin).
  rewrite flat_record_replica in Hrv. injection Hrv as <-.
  destruct (server_view_present conn _ k c Hv Hk Hc Hid) as [Hsv Hsid].
  eexists. eexists. eexists.
  split; [apply replicas_spec; assumption |].
  split; [| exact Hsid].
  rewrite (tuple_at conn n p Hp). unfold tuple_of. fold replica_fields. rewrite Hsv.
  reflexivity.
Qed.

Lemma server_of_a_replica_witness :
  exists out t st,
    query_replicas_with_stats Scenario.conn = Ok out /\
    nth_error out 0
    = Some (t, DObj [("id", Scenario.A); ("name", DStr "srv_a");
                     ("tags", DArr [DStr "default"])],
            DObj [("server", Scenario.A); ("state", DStr "ready")], st) /\
    bracket "id" (view server_fields Scenario.config_A) = Ok Scenario.A.
Proof.
  apply (server_of_a_replica Scenario.conn [Scenario.rec_A; Scenario.rec_B] 0 Scenario.rec_A
           _ Scenario.A Scenario.config_A);
    try reflexivity.
  left. reflexivity.
Defined.

(** X7.  When the server of a replica is configured and [stats] has a row
    keyed [['table_server', table, server]], the statistics of the tuple are
    that row cut down to [query_engine] and [storage_engine]. *)
Theorem stats_of_a_replica conn recs n rec tid rv k c s :
  forallb wf_status (table_status conn) = true ->
  tables_known conn = true ->
  valid_table (server_config conn) = true ->
  valid_table (stats conn) = true ->
  flatten conn = Ok recs ->
  nth_error recs n = Some rec ->
  bracket "table" rec = Ok tid ->
  bracket "replica" rec = Ok rv ->
  bracket "server" rv = Ok k ->
  In c (server_config conn) ->
  row_id c = Some k ->
  In s (stats conn) ->
  row_id s = Some (DArr [DStr "table_server"; tid; k]) ->
  exists out t sv,
    query_replicas_with_stats conn = Ok out /\
    nth_error out n = Some (t, sv, rv, view stats_fields s).
Proof.
  intros Hwf Hknown Hvc Hvs Hf Hn Htid Hrv Hk Hc Hcid Hs Hsid.
  destruct (flattened_at conn recs n rec Hwf Hf Hn) as (p & Hp & -> & Hin).
  rewrite flat_record_table in Htid. injection Htid as <-.
  rewrite flat_record_replica in Hrv. injection Hrv as <-.
  destruct (server_view_present conn _ k c Hvc Hk Hc Hcid) as [Hsv Hid].
  eexists. eexists. eexists.
  split; [apply replicas_spec; assumption |].
  rewrite (tuple_at conn n p Hp). unfold tuple_of. fold replica_fields. rewrite Hsv, Hid.
  unfold stats_view. rewrite (distinct_find _ s _ (valid_table_distinct _ Hvs) Hs Hsid).
  reflexivity.
Qed.

Lemma stats_of_a_replica_witness :
  exists out t sv,
    query_replicas_with_stats Scenario.conn = Ok out /\
    nth_error out 0
    = Some (t, sv, DObj [("server", Scenario.A); ("state", DStr "ready")],
            DObj [("query_engine", DObj [("read_docs_total", DNum 7)]);
                  ("storage_engine", DObj [("cache", DObj [("in_use_bytes", DNum 64)])])]).
Proof.
  apply (stats_of_a_replica Scenario.conn [Scenario.rec_A; Scenario.rec_B] 0 Scenario.rec_A
           Scenario.T1 _ Scenario.A Scenario.config_A Scenario.stats_replica_T1_A);
    try reflexivity.
  - left. reflexivity.
  - right. right. right. left. reflexivity.
Defined.

(** X8.  A replica that has no [server] field is no error either: the
    missing field is absorbed by the default, and the tuple carries the
    server [{id: null}] and empty statistics. *)
Theorem replica_without_server_is_defaulted conn recs n rec rv :
  forallb wf_status (table_status conn) = true ->
  tables_known conn = true ->
  valid_table (stats conn) = true ->
  flatten conn = Ok recs ->
  nth_error recs n = Some rec ->
  bracket "replica" rec = Ok rv ->
  bracket "server" rv = Err ReqlNonExistenceError ->
  exists out t,
    query_replicas_with_stats conn = Ok out /\
    nth_error out n = Some (t, DObj [("id", DNull)], rv, DObj []).
Proof.
  intros Hwf Hknown Hv Hf Hn Hrv Hk.
  destruct (flattened_at conn recs n rec Hwf Hf Hn) as (p & Hp & -> & _).
  rewrite flat_record_replica in Hrv. injection Hrv as <-.
  eexists. eexists. split; [apply replicas_spec; assumption |].
  rewrite (tuple_at conn n p Hp). unfold tuple_of. fold replica_fields.
  unfold server_view. rewrite Hk. reql_step.
  unfold stats_view. rewrite (not_existsb_find _ _ (no_null_key _ _ _ Hv)). reflexivity.
Qed.

Lemma replica_without_server_is_defaulted_witness :
  exists out t,
    query_replicas_with_stats Cases.anonymous = Ok out /\
    nth_error out 0
    = Some (t, DObj [("id", DNull)], DObj [("state", DStr "ready")], DObj []).
Proof.
  apply (replica_without_server_is_defaulted Cases.anonymous [Cases.rec_anonymous] 0
           Cases.rec_anonymous); reflexivity.
Defined.

(** X9.  On well-formed rows the flattening half of the query returns
    exactly one record [{table, replica}] per replica, in the order of the
    tables, then of the shards, then of the replicas in a shard, the replica
    cut down to [server] and [state]. *)
Theorem flatten_lists_replicas_in_order conn :
  forallb wf_status (table_status conn) = true ->
  flatten conn = Ok (map flat_record (replicas_in (table_status conn))).
Proof. apply flatten_spec. Qed.

Lemma flatten_lists_replicas_in_order_witness :
  flatten Scenario.sparse
  = Ok (map flat_record
          [(Scenario.T1, DObj [("server", Scenario.A); ("state", DStr "ready")]);
           (Scenario.T1, DObj [("server", Scenario.B); ("state", DStr "disconnected")])]).
Proof.
  apply (flatten_lists_replicas_in_order Scenario.sparse). reflexivity.
Defined.

(** X10.  Of [stats], [query_replicas_with_stats] reads the rows whose
    identifier starts with ['table_server'] only: two clusters with the same
    configuration and status tables and the same such rows give the same
    outcome, failure included. *)
Theorem replicas_read_replica_stats_only conn conn' :
  server_config conn = server_config conn' ->
  table_config conn = table_config conn' ->
  table_status conn = table_status conn' ->
  filter (starts_with "table_server") (stats conn)
  = filter (starts_with "table_server") (stats conn') ->
  query_replicas_with_stats conn = query_replicas_with_stats conn'.
Proof.
  destruct conn as [st1 sc1 tc1 ts1], conn' as [st2 sc2 tc2 ts2]. cbn.
  intros <- <- <- H.
  unfold query_replicas_with_stats, replicas_query.
  change (flatten {| stats := st2; server_config := sc1; table_config := tc1;
                     table_status := ts1 |})
    with (flatten {| stats := st1; server_config := sc1; table_config := tc1;
                     table_status := ts1 |}).
  destruct (flatten _) as [rows |]; [| reflexivity]. cbn [bind].
  change (table_info {| stats := st2; server_config := sc1; table_config := tc1;
                        table_status := ts1 |})
    with (table_info {| stats := st1; server_config := sc1; table_config := tc1;
                        table_status := ts1 |}).
  destruct (on_stream (merge_obj (table_info _)) rows) as [rows1 |]; [| reflexivity].
  cbn [bind].
  change (server_info {| stats := st2; server_config := sc1; table_config := tc1;
                         table_status := ts1 |})
    with (server_info {| stats := st1; server_config := sc1; table_config := tc1;
                         table_status := ts1 |}).
  destruct (on_stream (merge_obj (server_info _)) rows1) as [rows2 |]; [| reflexivity].
  cbn [bind].
  assert (E : on_stream (merge_obj (stats_info {| stats := st1; server_config := sc1;
                                                  table_config := tc1; table_status := ts1 |}))
                rows2
              = on_stream (merge_obj (stats_info {| stats := st2; server_config := sc1;
                                                    table_config := tc1; table_status := ts1 |}))
                  rows2).
  { unfold on_stream. apply mapM_ext. intros [| | | | | o]; try reflexivity.
    unfold on_object, merge_obj. rewrite (stats_info_ext st1 st2 sc1 tc1 ts1 _ H). reflexivity. }
  rewrite E. reflexivity.
Qed.

Lemma replicas_read_replica_stats_only_witness :
  query_replicas_with_stats Scenario.conn = query_replicas_with_stats Cases.replicas_only.
Proof.
  apply (replicas_read_replica_stats_only Scenario.conn Cases.replicas_only); reflexivity.
Defined.

(** X11.  Replicas are enriched one by one: on [table_status] rows put side
    by side the query yields the tuples of the first part followed by the
    tuples of the second. *)
Theorem replicas_of_tables_side_by_side conn ts1 ts2 :
  forallb wf_status (ts1 ++ ts2) = true ->
  tables_known (with_status conn (ts1 ++ ts2)) = true ->
  exists out1 out2,
    query_replicas_with_stats (with_status conn ts1) = Ok out1 /\
    query_replicas_with_stats (with_status conn ts2) = Ok out2 /\
    query_replicas_with_stats (with_status conn (ts1 ++ ts2)) = Ok (out1 ++ out2).
Proof.
  intros Hwf Hknown. rewrite forallb_app in Hwf. apply andb_true_iff in Hwf.
  destruct Hwf as [Hwf1 Hwf2].
  unfold tables_known in Hknown. cbn [with_status table_status table_config] in Hknown.
  rewrite replicas_in_app, forallb_app in Hknown. apply andb_true_iff in Hknown.
  destruct Hknown as [Hk1 Hk2].
  exists (map (tuple_of conn) (replicas_in ts1)), (map (tuple_of conn) (replicas_in ts2)).
  split; [| split].
  - rewrite replicas_spec; [reflexivity | exact Hwf1 | exact Hk1].
  - rewrite replicas_spec; [reflexivity | exact Hwf2 | exact Hk2].
  - rewrite replicas_spec.
    + cbn [with_status table_status]. rewrite replicas_in_app, map_app. reflexivity.
    + cbn [with_status table_status]. rewrite forallb_app, Hwf1, Hwf2. reflexivity.
    + unfold tables_known. cbn [with_status table_status table_config].
      rewrite replicas_in_app, forallb_app, Hk1, Hk2. reflexivity.
Qed.

Lemma replicas_of_tables_side_by_side_witness :
  exists out1 out2,
    query_replicas_with_stats (with_status Scenario.conn [Scenario.status_T1]) = Ok out1 /\
    query_replicas_with_stats (with_status Scenario.conn [Cases.status_anonymous]) = Ok out2 /\
    query_replicas_with_stats
      (with_status Scenario.conn ([Scenario.status_T1] ++ [Cases.status_anonymous]))
    = Ok (out1 ++ out2).
Proof.
  apply (replicas_of_tables_side_by_side Scenario.conn); reflexivity.
Defined.

(** X12.  The subscripts [row['left']] and [row['right']] never fail: the
    two join generators end in tuples or in an error of the server, never
    in a [KeyError] or a [TypeError]. *)
Theorem join_generators_raise_no_python_error conn :
  no_python_error (query_servers_with_stats conn) = true /\
  no_python_error (query_tables_with_stats conn) = true.
Proof.
  split.
  - exact (npe_join_query "server" (stats conn) (server_config conn)).
  - exact (npe_join_query "table" (stats conn) (table_config conn)).
Qed.

(** X13.  The four subscripts of [query_replicas_with_stats] never fail:
    whenever the server answers the query, one tuple per returned row is
    yielded, and the generator never ends in a [KeyError] or a
    [TypeError]. *)
Theorem replica_generator_raises_no_python_error conn :
  no_python_error (query_replicas_with_stats conn) = true /\
  (forall rows, replicas_query conn = Ok rows ->
     exists out, query_replicas_with_stats conn = Ok out /\
                 List.length out = List.length rows).
Proof.
  assert (H : forall rows, replicas_query conn = Ok rows ->
                exists out, query_replicas_with_stats conn = Ok out /\
                            List.length out = List.length rows).
  { intros rows E. unfold query_replicas_with_stats. rewrite E. cbn [bind].
    apply mapM_total. intros row Hrow.
    destruct (replicas_query_rows conn rows E row Hrow) as (o & -> & Ht & Hs & Hr & Hst).
    cbn [getitem].
    destruct (lookup "table" o); [| congruence]. cbn [bind].
    destruct (lookup "server" o); [| congruence]. cbn [bind].
    destruct (lookup "replica" o); [| congruence]. cbn [bind].
    destruct (lookup "stats" o); [| congruence]. cbn [bind].
    eexists. reflexivity. }
  split; [| exact H].
  destruct (replicas_query conn) as [rows | e] eqn:E.
  - destruct (H rows eq_refl) as (out & -> & _). reflexivity.
  - unfold query_replicas_with_stats. rewrite E. cbn [bind].
    pose proof (npe_replicas_query conn) as Hn. rewrite E in Hn. exact Hn.
Qed.

(** X14.  A statistics row whose identifier is a string, a number, a
    boolean or an object makes both joins fail with a logic error: [nth]
    does not apply to it and the filter does not absorb that error. *)
Theorem joins_fail_on_flat_identifier conn row i :
  In row (stats conn) -> row_id row = Some i -> not_a_sequence i = true ->
  query_servers_with_stats conn = Err ReqlQueryLogicError /\
  query_tables_with_stats conn = Err ReqlQueryLogicError.
Proof.
  intros Hin Hid Hi.
  assert (H : forall kind, filter_ (kind_row kind) (stats conn) = Err ReqlQueryLogicError).
  { intros kind. apply filter_logic_error; [apply npe_kind_row |].
    exists row. split; [exact Hin |]. apply (kind_row_not_a_sequence kind row i Hid Hi). }
  split.
  - unfold query_servers_with_stats.
    change is_server_stats_row with (kind_row "server"). rewrite H. reflexivity.
  - unfold query_tables_with_stats.
    change is_table_stats_row with (kind_row "table"). rewrite H. reflexivity.
Qed.

Lemma joins_fail_on_flat_identifier_witness :
  query_servers_with_stats Cases.flat = Err ReqlQueryLogicError /\
  query_tables_with_stats Cases.flat = Err ReqlQueryLogicError.
Proof.
  apply (joins_fail_on_flat_identifier Cases.flat Cases.stats_flat (DStr "server"));
    [right; left; reflexivity | reflexivity | reflexivity].
Defined.

(** X15.  A [table_status] row without [id] or without [shards] makes the
    flattening, and with it the whole replicas query, end in an error: the
    generator raises instead of running to its end. *)
Theorem status_row_missing_a_field_fails conn row o :
  In row (table_status conn) ->
  row = DObj o ->
  lookup "id" o = None \/ lookup "shards" o = None ->
  exists e, flatten conn = Err e /\ query_replicas_with_stats conn = Err e.
Proof.
  intros Hin -> Hmiss.
  destruct (flatten conn) as [recs | e] eqn:E.
  2:{ exists e. split; [reflexivity |].
      unfold query_replicas_with_stats, replicas_query. rewrite E. reflexivity. }
  exfalso. unfold flatten in E.
  destruct (on_stream (pluck_obj _) _) as [r1 |] eqn:E1; [| discriminate]. cbn [bind] in E.
  destruct (on_stream (merge_obj _) r1) as [r2 |] eqn:E2; [| discriminate]. cbn [bind] in E.
  destruct (on_stream (without_obj "id") r2) as [r3 |] eqn:E3; [| discriminate].
  cbn [bind] in E.
  destruct (concat_map _ r3) as [r4 |] eqn:E4; [| discriminate]. clear E.
  destruct (mapM_fwd _ _ _ E1 _ Hin) as (y1 & Ey1 & Hy1). cbn [on_object] in Ey1.
  destruct (pluck_status_fields o) as (r & Er & Hid & Hsh). rewrite Er in Ey1.
  injection Ey1 as <-.
  destruct (mapM_fwd _ _ _ E2 _ Hy1) as (y2 & Ey2 & Hy2).
  unfold on_object, merge_obj in Ey2. rewrite bracket_obj in Ey2. unfold field_of in Ey2.
  rewrite Hid in Ey2.
  destruct (lookup "id" o) as [i |] eqn:Ei; [| discriminate Ey2].
  destruct Hmiss as [Hmiss | Hmiss]; [discriminate Hmiss |].
  cbn [bind] in Ey2. injection Ey2 as <-.
  destruct (mapM_fwd _ _ _ E3 _ Hy2) as (y3 & Ey3 & Hy3).
  unfold on_object, without_obj in Ey3. injection Ey3 as <-.
  destruct (concat_map_fwd _ _ _ E4 _ Hy3) as (ys & Eys).
  rewrite bracket_obj in Eys. unfold field_of in Eys.
  rewrite lookup_remove_other, lookup_overwrite_other, (Hsh Hmiss) in Eys by reflexivity.
  discriminate Eys.
Qed.

Lemma status_row_missing_a_field_fails_witness :
  exists e, flatten Cases.bare = Err e /\ query_replicas_with_stats Cases.bare = Err e.
Proof.
  apply (status_row_missing_a_field_fails Cases.bare Cases.status_bare
           [("id", DStr "T4"); ("db", DStr "d"); ("name", DStr "t4")]).
  - right. left. reflexivity.
  - reflexivity.
  - right. reflexivity.
Defined.

(** X16.  Each [pluck] of plain field names in the replicas query succeeds
    on every object and keeps exactly the named fields that the object has,
    with their values. *)
Theorem pluck_keeps_the_named_fields o :
  (exists r, pluck (fields ["server"; "state"]) (DObj o) = Ok (DObj r) /\
             forall k, lookup k r
                       = if existsb (String.eqb k) ["server"; "state"] then lookup k o else None)
  /\ (exists r, pluck (fields ["id"; "db"; "name"]) (DObj o) = Ok (DObj r) /\
                forall k, lookup k r
                          = if existsb (String.eqb k) ["id"; "db"; "name"]
                            then lookup k o else None)
  /\ (exists r, pluck (fields ["id"; "name"; "tags"]) (DObj o) = Ok (DObj r) /\
                forall k, lookup k r
                          = if existsb (String.eqb k) ["id"; "name"; "tags"]
                            then lookup k o else None)
  /\ (exists r, pluck (fields ["query_engine"; "storage_engine"]) (DObj o) = Ok (DObj r) /\
                forall k, lookup k r
                          = if existsb (String.eqb k) ["query_engine"; "storage_engine"]
                            then lookup k o else None).
Proof.
  repeat split.
  - eexists. split; [apply (pluck_view2 "server" "state" o); reflexivity |].
    intros k. apply lookup_fields.
  - eexists. split; [apply (pluck_view3 "id" "db" "name" o); reflexivity |].
    intros k. apply lookup_fields.
  - eexists. split; [apply (pluck_view3 "id" "name" "tags" o); reflexivity |].
    intros k. apply lookup_fields.
  - eexists. split; [apply (pluck_view2 "query_engine" "storage_engine" o); reflexivity |].
    intros k. apply lookup_fields.
Qed.
